(** * HSK vocabulary scripts: export to CSV, import from CSV

    A shallow embedding of [Scripts/createcsv.py] and
    [Scripts/import_csv.py] together with the properties of the two
    scripts and of their common configuration loader.

    Modelling conventions.
    - A Python [str] is a [string]: the sequence of bytes of its UTF-8
      encoding.  The delimiters the scripts look for (';', '=', ',', the
      double quote, CR, LF) are ASCII, and UTF-8 never uses an ASCII byte
      inside a multi-byte character, so splitting and quoting agree with
      Python's on code points.  [str.strip] and [int] are modelled on ASCII
      white space and ASCII digits.
    - Console output, the CSV files, the MySQL table and the connection are
      fields of one [State]; a script is a function in the state and
      exception monad [M].
    - What the scripts read but never change (the operating system name,
      the appsettings files, the server's answers to a login and the
      column constraints of the table, whose DDL is not part of the
      repository) is gathered in [Env]. *)

From Stdlib Require Import ZArith Ascii.
From stdpp Require Import base option list gmap fin_maps fin_map_dom
  strings pretty sorting numbers.

Local Open Scope Z_scope.

Set Warnings "-clear-no-such-hyp".

(** ** Characters and Python string methods *)

Definition LF : ascii := "010"%char.
Definition CR : ascii := "013"%char.
Definition DQUOTE : ascii := "034"%char.
Definition COMMA : ascii := ","%char.

Definition ascii_eqb (a b : ascii) : bool := bool_decide (a = b).

(** [c in s] for a one-character [c]. *)
Fixpoint str_contains (c : ascii) (s : string) : bool :=
  match s with
  | EmptyString => false
  | String d s' => ascii_eqb c d || str_contains c s'
  end.

(** [s.split(sep)] for a one-character separator: never empty. *)
Fixpoint str_split (sep : ascii) (s : string) : list string :=
  match s with
  | EmptyString => [EmptyString]
  | String c s' =>
      if ascii_eqb c sep then EmptyString :: str_split sep s'
      else match str_split sep s' with
           | [] => [String c EmptyString]
           | w :: ws => String c w :: ws
           end
  end.

(** [s.split(sep, 1)]: at most one cut, at the first separator. *)
Fixpoint str_split1 (sep : ascii) (s : string) : list string :=
  match s with
  | EmptyString => [EmptyString]
  | String c s' =>
      if ascii_eqb c sep then [EmptyString; s']
      else match str_split1 sep s' with
           | w :: ws => String c w :: ws
           | [] => [String c EmptyString]
           end
  end.

(** White space of [str.strip()] in the ASCII range: TAB, LF, VT, FF, CR,
    the separators FS, GS, RS, US, and the space. The white space that
    Unicode has beyond ASCII (the no-break space and the like) is left in
    place. *)
Definition is_space (c : ascii) : bool :=
  let n := N_of_ascii c in
  ((9 <=? n) && (n <=? 13) || (28 <=? n) && (n <=? 32))%N.

Fixpoint lstrip (s : string) : string :=
  match s with
  | EmptyString => EmptyString
  | String c s' => if is_space c then lstrip s' else s
  end.

Fixpoint rstrip (s : string) : string :=
  match s with
  | EmptyString => EmptyString
  | String c s' =>
      match rstrip s' with
      | EmptyString => if is_space c then EmptyString else String c EmptyString
      | r => String c r
      end
  end.

Definition strip (s : string) : string := rstrip (lstrip s).

(** [str.lower()] on the letters A to Z. No other character has an ASCII
    letter of the loader's four key names for its lower case, so comparing
    a lower-cased name with one of them is not affected. *)
Definition lower_char (c : ascii) : ascii :=
  let n := N_of_ascii c in
  if ((65 <=? n) && (n <=? 90))%N then ascii_of_N (n + 32) else c.

Fixpoint lower (s : string) : string :=
  match s with
  | EmptyString => EmptyString
  | String c s' => String (lower_char c) (lower s')
  end.

Fixpoint str_join (sep : string) (l : list string) : string :=
  match l with
  | [] => EmptyString
  | [x] => x
  | x :: l' => x +:+ sep +:+ str_join sep l'
  end.

Definition str_concat (l : list string) : string :=
  fold_right String.append EmptyString l.

Definition is_digit (c : ascii) : bool :=
  let n := N_of_ascii c in ((48 <=? n) && (n <=? 57))%N.

Definition digit_value (c : ascii) : Z := Z.of_N (N_of_ascii c) - 48.

(** Digits of a decimal literal; an underscore may stand between two
    digits. [after_digit] tells whether the previous character was one. *)
Fixpoint int_digits (acc : Z) (after_digit : bool) (s : string) : option Z :=
  match s with
  | EmptyString => if after_digit then Some acc else None
  | String c s' =>
      if is_digit c then int_digits (10 * acc + digit_value c) true s'
      else if ascii_eqb c "_"%char
           then (if after_digit then int_digits acc false s' else None)
           else None
  end.

(** [int(s)] for a [str]: [None] stands for [ValueError]. Digits are the
    ASCII ones; the cap that recent interpreters put on the number of
    digits is not modelled. *)
Definition py_int (s : string) : option Z :=
  match strip s with
  | String "-"%char body => Z.opp <$> int_digits 0 false body
  | String "+"%char body => int_digits 0 false body
  | body => int_digits 0 false body
  end.

(** [str(n)] for an [int]. *)
Definition py_str_int (n : Z) : string := pretty n.

(** ** Python values, exceptions and JSON documents *)

(** What a fetched column or a CSV cell can hold. *)
Inductive pyval : Type :=
  | PyNone
  | PyInt (n : Z)
  | PyStr (s : string).

Inductive exn : Type :=
  | FileNotFoundError (path : string)
  | KeyError (key : string)
  | TypeError (msg : string)
  | AttributeError (msg : string)
  | ValueError (msg : string)
  | CsvError (msg : string)
  | OtherError (msg : string)              (* any other [Exception] *)
  | MySQLError (errno : Z) (msg : string). (* the [pymysql.Error] family *)

Definition is_FileNotFoundError (e : exn) : bool :=
  match e with FileNotFoundError _ => true | _ => false end.

Definition is_pymysql_Error (e : exn) : bool :=
  match e with MySQLError _ _ => true | _ => false end.

Definition quoted (s : string) : string := "'" +:+ s +:+ "'".

(** [str(e)], as the f-strings of the handlers print it. *)
Definition exn_str (e : exn) : string :=
  match e with
  | FileNotFoundError p => "[Errno 2] No such file or directory: " +:+ quoted p
  | KeyError k => quoted k
  | TypeError m | AttributeError m | ValueError m | CsvError m | OtherError m => m
  | MySQLError n m => "(" +:+ py_str_int n +:+ ", " +:+ quoted m +:+ ")"
  end.

(** The result of [json.load]. An object keeps its members in file order;
    as in a Python [dict], the last member of a given name wins. *)
#[warning="-register-all"] Inductive json : Type :=
  | JNull
  | JBool (b : bool)
  | JNumber (literal : string)
  | JString (s : string)
  | JArray (items : list json)
  | JObject (members : list (string * json)).

Fixpoint assoc_last {A} (k : string) (l : list (string * A)) : option A :=
  match l with
  | [] => None
  | (k', v) :: l' =>
      match assoc_last k l' with
      | Some w => Some w
      | None => if bool_decide (k' = k) then Some v else None
      end
  end.

(** ** The table, the environment and the state of a run *)

(** The five columns of [hsk_words] next to the primary key [Id];
    [None] is SQL NULL. *)
Record Columns : Type := {
  Chinese : option string;
  Pinyin : option string;
  Pinyin_With_Tone : option string;
  Japanese_Meaning : option string;
  Hsk_Level : option Z;
}.

(** The statements the two scripts send. *)
Inductive sql : Type :=
  | DELETE_FROM_hsk_words
  | ALTER_TABLE_hsk_words_AUTO_INCREMENT (n : Z)
  | INSERT_INTO_hsk_words (id : Z) (c : Columns)
  | SELECT_FROM_hsk_words_ORDER_BY_Id
  | SELECT_COUNT_FROM_hsk_words
  | SELECT_COUNT_GROUP_BY_Hsk_Level.

Inductive db_event : Type :=
  | EvConnect (db_config : gmap string string)
  | EvExecute (q : sql)
  | EvCommit
  | EvRollback
  | EvClose.

Record Env : Type := {
  (** [platform.system()] *)
  platform_system : string;
  (** the directory above the script's own *)
  project_root : string;
  (** [os.sep] *)
  os_sep : string;
  (** the appsettings files by path: absent, unreadable or not JSON
      ([inl], the exception that [open] or [json.load] raises), or a
      document *)
  config_files : gmap string (exn + json);
  (** whether the server lets [pymysql.connect] in with these arguments *)
  server_accepts : gmap string string -> bool;
  (** the column types and constraints of [hsk_words]: whether the server
      takes a row with these values *)
  column_constraints : Z -> Columns -> bool;
}.

Record State : Type := {
  (** what [print] wrote, one entry per call, oldest first *)
  stdout : list string;
  (** the files of the working directory, as bytes *)
  files : gmap string string;
  (** the committed rows of [hsk_words], by [Id] *)
  hsk_words : gmap Z Columns;
  (** the table's AUTO_INCREMENT counter *)
  auto_increment : Z;
  (** the rows as the open connection sees them, with its uncommitted
      changes; [None] when no connection is open *)
  session : option (gmap Z Columns);
  (** every call that reached the database driver, oldest first *)
  db_log : list db_event;
}.

Definition set_stdout (f : list string -> list string) (st : State) : State :=
  {| stdout := f (stdout st); files := files st; hsk_words := hsk_words st;
     auto_increment := auto_increment st; session := session st;
     db_log := db_log st |}.

Definition set_files (f : gmap string string -> gmap string string)
    (st : State) : State :=
  {| stdout := stdout st; files := f (files st); hsk_words := hsk_words st;
     auto_increment := auto_increment st; session := session st;
     db_log := db_log st |}.

Definition set_hsk_words (t : gmap Z Columns) (st : State) : State :=
  {| stdout := stdout st; files := files st; hsk_words := t;
     auto_increment := auto_increment st; session := session st;
     db_log := db_log st |}.

Definition set_auto_increment (n : Z) (st : State) : State :=
  {| stdout := stdout st; files := files st; hsk_words := hsk_words st;
     auto_increment := n; session := session st; db_log := db_log st |}.

Definition set_session (s : option (gmap Z Columns)) (st : State) : State :=
  {| stdout := stdout st; files := files st; hsk_words := hsk_words st;
     auto_increment := auto_increment st; session := s;
     db_log := db_log st |}.

Definition log_event (ev : db_event) (st : State) : State :=
  {| stdout := stdout st; files := files st; hsk_words := hsk_words st;
     auto_increment := auto_increment st; session := session st;
     db_log := db_log st ++ [ev] |}.

(** ** The monad of the scripts: state and exceptions *)

Inductive result (A : Type) : Type :=
  | Return (a : A)
  | Raise (e : exn).
Arguments Return {A} a.
Arguments Raise {A} e.

Definition M (A : Type) : Type := State -> result A * State.

Definition ret {A} (a : A) : M A := fun st => (Return a, st).

Definition raise {A} (e : exn) : M A := fun st => (Raise e, st).

Definition bind {A B} (m : M A) (k : A -> M B) : M B :=
  fun st =>
    match m st with
    | (Return a, st') => k a st'
    | (Raise e, st') => (Raise e, st')
    end.

Declare Scope py_scope.
Delimit Scope py_scope with py.
Notation "x <- m ;; k" := (bind m (fun x => k))
  (at level 100, m at next level, right associativity) : py_scope.
Notation "m ;;; k" := (bind m (fun _ => k))
  (at level 100, right associativity) : py_scope.
Local Open Scope py_scope.

(** [try: body  except Exception as e: handler e] *)
Definition try_except {A} (body : M A) (handler : exn -> M A) : M A :=
  fun st =>
    match body st with
    | (Return a, st') => (Return a, st')
    | (Raise e, st') => handler e st'
    end.

(** [try: body  finally: cleanup] *)
Definition try_finally {A} (body : M A) (cleanup : M unit) : M A :=
  fun st =>
    match body st with
    | (r, st') =>
        match cleanup st' with
        | (Return _, st'') => (r, st'')
        | (Raise e, st'') => (Raise e, st'')
        end
    end.

Definition when (b : bool) (m : M unit) : M unit :=
  if b then m else ret tt.

(** [for x in l: body x] *)
Fixpoint for_each {A} (l : list A) (body : A -> M unit) : M unit :=
  match l with
  | [] => ret tt
  | x :: l' => body x ;;; for_each l' body
  end.

Definition print (line : string) : M unit :=
  fun st => (Return tt, set_stdout (fun out => out ++ [line]) st).

(** The final state and the outcome of a run. *)
Definition final {A} (m : M A) (st : State) : State := snd (m st).
Definition outcome {A} (m : M A) (st : State) : result A := fst (m st).

(** ** Files *)

Definition BOM : string :=
  String (ascii_of_N 239) (String (ascii_of_N 187) (String (ascii_of_N 191) EmptyString)).

(** Decoding with [encoding='utf-8-sig']: a leading byte-order mark is
    dropped. *)
Definition decode_utf8_sig (bytes : string) : string :=
  match bytes with
  | String b1 (String b2 (String b3 rest)) =>
      if ascii_eqb b1 (ascii_of_N 239) && ascii_eqb b2 (ascii_of_N 187)
         && ascii_eqb b3 (ascii_of_N 191)
      then rest else bytes
  | _ => bytes
  end.

(** Encoding with [encoding='utf-8-sig']: the mark comes first. *)
Definition encode_utf8_sig (text : string) : string := BOM +:+ text.

(** Reading in text mode with the default [newline=None]: CR LF and a lone
    CR both arrive as LF. *)
Fixpoint universal_newlines (s : string) : string :=
  match s with
  | EmptyString => EmptyString
  | String c s' =>
      if ascii_eqb c CR then
        match s' with
        | String d s'' =>
            if ascii_eqb d LF then String LF (universal_newlines s'')
            else String LF (universal_newlines s')
        | EmptyString => String LF EmptyString
        end
      else String c (universal_newlines s')
  end.

(** The lines a text file yields when iterated: each ends with its LF,
    except possibly the last. *)
Fixpoint readlines (s : string) : list string :=
  match s with
  | EmptyString => []
  | String c s' =>
      if ascii_eqb c LF then String c EmptyString :: readlines s'
      else match readlines s' with
           | [] => [String c EmptyString]
           | l :: ls => String c l :: ls
           end
  end.

(** [open(path, 'r', encoding='utf-8-sig')], iterated: the lines of the
    file, or [FileNotFoundError]. *)
Definition open_read (path : string) : M (list string) :=
  fun st =>
    match files st !! path with
    | Some bytes => (Return (readlines (universal_newlines (decode_utf8_sig bytes))), st)
    | None => (Raise (FileNotFoundError path), st)
    end.

(** [open(path, 'w', newline='', encoding='utf-8-sig')], written and
    closed: the text goes out as it is, behind the mark. *)
Definition open_write (path text : string) : M unit :=
  fun st => (Return tt, set_files (fun fs => <[path := encode_utf8_sig text]> fs) st).

(** [os.path.join(dir, name)] for a relative [name] and a non-empty [dir]. *)
Fixpoint ends_with (suffix s : string) : bool :=
  bool_decide (s = suffix)
  || match s with
     | EmptyString => false
     | String _ s' => ends_with suffix s'
     end.

Definition os_path_join (sep dir name : string) : string :=
  if ends_with sep dir then dir +:+ name else dir +:+ sep +:+ name.

(** ** The database driver

    The server is MySQL and the driver is [pymysql], which opens its
    connections with autocommit off. The rules of the server that decide
    what a run leaves behind:
    - a connection works on its own view of the table; [commit] publishes
      the view, [rollback] and [close] drop it;
    - ALTER TABLE is a data definition statement: it first commits the
      open transaction (an implicit commit, as for every such statement),
      and takes effect at once, outside any transaction;
    - the AUTO_INCREMENT counter is not transactional; ALTER TABLE cannot
      set it below the largest [Id] in the table plus one, and an INSERT
      with an explicit [Id] at or above it moves it past that [Id];
    - an INSERT fails on an [Id] that the table already has, and on values
      that the columns do not take ([column_constraints]).
    A statement otherwise succeeds: a lost connection and the like are not
    modelled, nor is the generation of an [Id] for a row inserted with
    [Id] 0. *)

Definition interface_error : exn := MySQLError 0 "".

(** [pymysql.connect], called with the fields of [db_config] as keyword
    arguments *)
Definition connect (env : Env) (db_config : gmap string string) : M unit :=
  fun st =>
    let st := log_event (EvConnect db_config) st in
    if server_accepts env db_config
    then (Return tt, set_session (Some (hsk_words st)) st)
    else (Raise (MySQLError 1045 "Access denied"), st).

(** [if connection:] in the handlers: the variable is bound exactly when
    [connect] returned. *)
Definition connection_is_set : M bool :=
  fun st => (Return (bool_decide (is_Some (session st))), st).

(** The largest [Id] of a table, if it has a row. *)
Definition max_id (t : gmap Z Columns) : option Z :=
  map_fold (fun k _ acc => Some (match acc with
                                 | Some m => Z.max k m
                                 | None => k
                                 end)) None t.

(** [cursor.execute("DELETE FROM hsk_words")]; the result is
    [cursor.rowcount]. *)
Definition execute_delete : M nat :=
  fun st =>
    let st := log_event (EvExecute DELETE_FROM_hsk_words) st in
    match session st with
    | Some t => (Return (size t), set_session (Some ∅) st)
    | None => (Raise interface_error, st)
    end.

(** [cursor.execute("ALTER TABLE hsk_words AUTO_INCREMENT = n")]: the view
    of the connection becomes the table, then the counter is set. *)
Definition execute_alter_auto_increment (n : Z) : M unit :=
  fun st =>
    let st := log_event (EvExecute (ALTER_TABLE_hsk_words_AUTO_INCREMENT n)) st in
    match session st with
    | Some t =>
        let counter := match max_id t with
                       | Some m => if n <=? m then m + 1 else n
                       | None => n
                       end in
        (Return tt, set_auto_increment counter (set_hsk_words t st))
    | None => (Raise interface_error, st)
    end.

(** [cursor.execute(insert_query, (id, ...))] *)
Definition execute_insert (env : Env) (id : Z) (c : Columns) : M unit :=
  fun st =>
    let st := log_event (EvExecute (INSERT_INTO_hsk_words id c)) st in
    match session st with
    | Some t =>
        if negb (column_constraints env id c)
        then (Raise (MySQLError 1366 "Incorrect value"), st)
        else if bool_decide (is_Some (t !! id))
        then (Raise (MySQLError 1062 "Duplicate entry for key PRIMARY"), st)
        else (Return tt,
              set_auto_increment (Z.max (auto_increment st) (id + 1))
                (set_session (Some (<[id := c]> t)) st))
    | None => (Raise interface_error, st)
    end.

(** The order of [ORDER BY Id]. *)
Definition id_le (r1 r2 : Z * Columns) : Prop := r1.1 <= r2.1.

Global Instance id_le_dec : RelDecision id_le.
Proof. intros r1 r2. unfold id_le. apply _. Defined.

(** [SELECT Id, ... FROM hsk_words ORDER BY Id] followed by
    [cursor.fetchall()] *)
Definition select_order_by_id (t : gmap Z Columns) : list (Z * Columns) :=
  merge_sort id_le (map_to_list t).

Definition execute_select_all : M (list (Z * Columns)) :=
  fun st =>
    let st := log_event (EvExecute SELECT_FROM_hsk_words_ORDER_BY_Id) st in
    match session st with
    | Some t => (Return (select_order_by_id t), st)
    | None => (Raise interface_error, st)
    end.

(** [SELECT COUNT( * ) FROM hsk_words] followed by [fetchone()[0]] *)
Definition execute_select_count : M nat :=
  fun st =>
    let st := log_event (EvExecute SELECT_COUNT_FROM_hsk_words) st in
    match session st with
    | Some t => (Return (size t), st)
    | None => (Raise interface_error, st)
    end.

(** NULL sorts before every number. *)
Definition level_le (a b : option Z) : Prop :=
  match a, b with
  | None, _ => True
  | Some _, None => False
  | Some x, Some y => x <= y
  end.

Global Instance level_le_dec : RelDecision level_le.
Proof. intros [x|] [y|]; simpl; apply _. Defined.

Definition level_counts (t : gmap Z Columns) : list (option Z * nat) :=
  let levels := (fun r : Z * Columns => Hsk_Level r.2) <$> map_to_list t in
  (fun l => (l, length (filter (fun l' => l' = l) levels)))
    <$> merge_sort level_le (remove_dups levels).

(** [SELECT Hsk_Level, COUNT( * ) ... GROUP BY Hsk_Level ORDER BY Hsk_Level]
    followed by [fetchall()] *)
Definition execute_select_level_counts : M (list (option Z * nat)) :=
  fun st =>
    let st := log_event (EvExecute SELECT_COUNT_GROUP_BY_Hsk_Level) st in
    match session st with
    | Some t => (Return (level_counts t), st)
    | None => (Raise interface_error, st)
    end.

(** [connection.commit()] *)
Definition commit : M unit :=
  fun st =>
    let st := log_event EvCommit st in
    match session st with
    | Some t => (Return tt, set_hsk_words t st)
    | None => (Raise interface_error, st)
    end.

(** [connection.rollback()] *)
Definition rollback : M unit :=
  fun st =>
    let st := log_event EvRollback st in
    match session st with
    | Some _ => (Return tt, set_session (Some (hsk_words st)) st)
    | None => (Raise interface_error, st)
    end.

(** [connection.close()]: what was not committed is lost. *)
Definition close : M unit :=
  fun st =>
    let st := log_event EvClose st in
    match session st with
    | Some _ => (Return tt, set_session None st)
    | None => (Raise interface_error, st)
    end.

(** ** The configuration loader: [load_db_config]

    The function is the same, line for line, in both scripts. *)

(** [v[key]] for a string [key] *)
Definition subscript (v : json) (key : string) : M json :=
  match v with
  | JObject members =>
      match assoc_last key members with
      | Some x => ret x
      | None => raise (KeyError key)
      end
  | JArray _ => raise (TypeError "list indices must be integers or slices, not str")
  | JString _ => raise (TypeError "string indices must be integers, not 'str'")
  | JNull => raise (TypeError "'NoneType' object is not subscriptable")
  | JBool _ => raise (TypeError "'bool' object is not subscriptable")
  | JNumber _ => raise (TypeError "'int' object is not subscriptable")
  end.

(** [v.split(';')]: only a [str] has the method. *)
Definition split_method (v : json) : M (list string) :=
  match v with
  | JString s => ret (str_split ";" s)
  | _ => raise (AttributeError "object has no attribute 'split'")
  end.

(** [d[k]] on a [dict] *)
Definition getitem {A} (d : gmap string A) (k : string) : M A :=
  match d !! k with
  | Some v => ret v
  | None => raise (KeyError k)
  end.

(** A [for] loop that updates a local variable. *)
Fixpoint for_fold {A S} (l : list A) (s : S) (body : S -> A -> M S) : M S :=
  match l with
  | [] => ret s
  | x :: l' => s' <- body s x ;; for_fold l' s' body
  end.

Definition string_eqb (a b : string) : bool := bool_decide (a = b).

(** The body of the loop over the items of the connection string. *)
Definition parse_item (db_config : gmap string string) (item : string)
    : M (gmap string string) :=
  if str_contains "=" item then
    match str_split1 "=" item with
    | [key; value] =>
        let key := lower (strip key) in
        let value := strip value in
        if string_eqb key "server" then ret (<["host" := value]> db_config)
        else if string_eqb key "database" then ret (<["database" := value]> db_config)
        else if string_eqb key "user" then ret (<["user" := value]> db_config)
        else if string_eqb key "password" then ret (<["password" := value]> db_config)
        else ret db_config
    | _ => raise (ValueError "not enough values to unpack (expected 2, got 1)")
    end
  else ret db_config.

(** The file name and the environment name chosen for an operating
    system. *)
Definition config_file_for (system : string) : string * string :=
  if string_eqb system "Windows"
  then ("appsettings.Development.json", "Development")
  else ("appsettings.Production.json", "Production").

Definition config_path (env : Env) : string :=
  os_path_join (os_sep env) (project_root env)
    (config_file_for (platform_system env)).1.

(** [with open(config_path, 'r', encoding='utf-8') as f: json.load(f)] *)
Definition json_load (env : Env) (path : string) : M json :=
  match config_files env !! path with
  | None => raise (FileNotFoundError path)
  | Some (inl e) => raise e
  | Some (inr document) => ret document
  end.

Definition load_db_config (env : Env) : M (gmap string string) :=
  let system := platform_system env in
  let config_file := (config_file_for system).1 in
  let env_name := (config_file_for system).2 in
  print ("Detected OS: " +:+ system +:+ " -> Using " +:+ env_name +:+ " environment") ;;;
  let config_path := os_path_join (os_sep env) (project_root env) config_file in
  try_except
    (config <- json_load env config_path ;;
     connection_strings <- subscript config "ConnectionStrings" ;;
     conn_str <- subscript connection_strings "DefaultConnection" ;;
     items <- split_method conn_str ;;
     db_config <- for_fold items ∅ parse_item ;;
     let db_config := <["charset" := "utf8mb4"]> db_config in
     print ("Loaded config: " +:+ config_file) ;;;
     host <- getitem db_config "host" ;;
     print ("  Host: " +:+ host) ;;;
     database <- getitem db_config "database" ;;
     print ("  Database: " +:+ database) ;;;
     user <- getitem db_config "user" ;;
     print ("  User: " +:+ user) ;;;
     ret db_config)
    (fun e =>
       if is_FileNotFoundError e
       then (print ("Error: Config file not found: " +:+ config_path) ;;; raise e)
       else (print ("Error loading config: " +:+ exn_str e) ;;; raise e)).

(** ** The [csv] module, in the default ("excel") dialect

    delimiter comma, quote character the double quote, doubled inside a
    quoted field, no escape
    character, minimal quoting, line terminator CR LF, not strict. *)

Definition CRLF : string := String CR (String LF EmptyString).

(** How [csv.writer] turns a value into text. *)
Definition field_text (v : pyval) : string :=
  match v with
  | PyNone => EmptyString
  | PyInt n => py_str_int n
  | PyStr s => s
  end.

(** A field is quoted when it holds the delimiter, the quote character or
    a character of the line terminator. *)
Definition needs_quoting (c : ascii) : bool :=
  ascii_eqb c COMMA || ascii_eqb c DQUOTE || ascii_eqb c CR || ascii_eqb c LF.

Fixpoint str_exists (p : ascii -> bool) (s : string) : bool :=
  match s with
  | EmptyString => false
  | String c s' => p c || str_exists p s'
  end.

Fixpoint double_quotes (s : string) : string :=
  match s with
  | EmptyString => EmptyString
  | String c s' =>
      if ascii_eqb c DQUOTE then String DQUOTE (String DQUOTE (double_quotes s'))
      else String c (double_quotes s')
  end.

Definition join_append (field : string) : string :=
  let body := double_quotes field in
  if str_exists needs_quoting field
  then String DQUOTE body +:+ String DQUOTE EmptyString
  else body.

(** [csv_writer.writerow(row)]: the text added to the file. A row of one
    empty field is written as a pair of quotes. *)
Definition writerow (row : list pyval) : string :=
  let record := str_join "," ((fun v => join_append (field_text v)) <$> row) in
  let record :=
    if negb (bool_decide (row = [])) && string_eqb record EmptyString
    then String DQUOTE (String DQUOTE EmptyString)
    else record in
  record +:+ CRLF.

(** [csv_writer.writerows(rows)] *)
Definition writerows (rows : list (list pyval)) : string :=
  str_concat (writerow <$> rows).

(** The states of the reader that the dialect can reach. *)
Inductive ParserState : Type :=
  | START_RECORD
  | START_FIELD
  | IN_FIELD
  | IN_QUOTED_FIELD
  | QUOTE_IN_QUOTED_FIELD
  | EAT_CRNL.

Record Reader : Type := {
  state : ParserState;
  fields : list string;   (* the fields of the record so far *)
  field : string;         (* the field being read *)
}.

Definition set_state (s : ParserState) (r : Reader) : Reader :=
  {| state := s; fields := fields r; field := field r |}.

Definition parse_reset : Reader :=
  {| state := START_RECORD; fields := []; field := EmptyString |}.

Definition parse_save_field (r : Reader) : Reader :=
  {| state := state r; fields := fields r ++ [field r]; field := EmptyString |}.

Definition field_limit : N := 131072.

Definition parse_add_char (r : Reader) (c : ascii) : exn + Reader :=
  if (field_limit <=? N.of_nat (String.length (field r)))%N
  then inl (CsvError "field larger than field limit (131072)")
  else inr {| state := state r; fields := fields r;
              field := field r +:+ String c EmptyString |}.

Definition is_newline (c : ascii) : bool := ascii_eqb c LF || ascii_eqb c CR.

Definition then_state (s : ParserState) (x : exn + Reader) : exn + Reader :=
  match x with
  | inl e => inl e
  | inr r => inr (set_state s r)
  end.

(** One step of the reader; [None] is the end of the line. *)
Definition parse_process_char (r : Reader) (c : option ascii) : exn + Reader :=
  let start_field (r : Reader) : exn + Reader :=
    match c with
    | None => inr (set_state START_RECORD (parse_save_field r))
    | Some ch =>
        if is_newline ch then inr (set_state EAT_CRNL (parse_save_field r))
        else if ascii_eqb ch DQUOTE then inr (set_state IN_QUOTED_FIELD r)
        else if ascii_eqb ch COMMA then inr (parse_save_field r)
        else then_state IN_FIELD (parse_add_char r ch)
    end in
  match state r with
  | START_RECORD =>
      match c with
      | None => inr r
      | Some ch =>
          if is_newline ch then inr (set_state EAT_CRNL r)
          else start_field (set_state START_FIELD r)
      end
  | START_FIELD => start_field r
  | IN_FIELD =>
      match c with
      | None => inr (set_state START_RECORD (parse_save_field r))
      | Some ch =>
          if is_newline ch then inr (set_state EAT_CRNL (parse_save_field r))
          else if ascii_eqb ch COMMA then inr (set_state START_FIELD (parse_save_field r))
          else parse_add_char r ch
      end
  | IN_QUOTED_FIELD =>
      match c with
      | None => inr r
      | Some ch =>
          if ascii_eqb ch DQUOTE then inr (set_state QUOTE_IN_QUOTED_FIELD r)
          else parse_add_char r ch
      end
  | QUOTE_IN_QUOTED_FIELD =>
      match c with
      | None => inr (set_state START_RECORD (parse_save_field r))
      | Some ch =>
          if ascii_eqb ch DQUOTE then then_state IN_QUOTED_FIELD (parse_add_char r ch)
          else if ascii_eqb ch COMMA then inr (set_state START_FIELD (parse_save_field r))
          else if is_newline ch then inr (set_state EAT_CRNL (parse_save_field r))
          else then_state IN_FIELD (parse_add_char r ch)
      end
  | EAT_CRNL =>
      match c with
      | None => inr (set_state START_RECORD r)
      | Some ch =>
          if is_newline ch then inr r
          else inl (CsvError "new-line character seen in unquoted field")
      end
  end.

(** The characters of a line, then the end of the line. *)
Fixpoint parse_line (r : Reader) (line : string) : exn + Reader :=
  match line with
  | EmptyString => parse_process_char r None
  | String c line' =>
      match parse_process_char r (Some c) with
      | inl e => inl e
      | inr r' => parse_line r' line'
      end
  end.

(** [csv.reader(f)], iterated to the end: the records in order, and the
    exception that stopped the iteration, if one did. A record is complete
    when a line ends in state [START_RECORD]; at the end of the input a
    record still open is closed. *)
Fixpoint csv_reader_from (r : Reader) (lines : list string)
    : list (list string) * option exn :=
  match lines with
  | [] =>
      if negb (string_eqb (field r) EmptyString)
         || match state r with IN_QUOTED_FIELD => true | _ => false end
      then ([fields (parse_save_field r)], None)
      else ([], None)
  | line :: lines' =>
      match parse_line r line with
      | inl e => ([], Some e)
      | inr r' =>
          match state r' with
          | START_RECORD =>
              let '(records, err) := csv_reader_from parse_reset lines' in
              (fields r' :: records, err)
          | _ => csv_reader_from r' lines'
          end
      end
  end.

Definition csv_reader (lines : list string) : list (list string) * option exn :=
  csv_reader_from parse_reset lines.

(** The [dict] that [csv.DictReader] builds for a record: the field names
    zipped with the cells, and [None] for the names left without a cell.
    (Cells beyond the names go under the key [None], which the importer
    never reads.) *)
Definition dict_row (fieldnames record : list string) : gmap string (option string) :=
  let d := fold_left (fun d kv => <[kv.1 := Some kv.2]> d) (zip fieldnames record) ∅ in
  fold_left (fun d k => <[k := None]> d) (drop (length record) fieldnames) d.

Definition is_nil {A} (l : list A) : bool :=
  match l with [] => true | _ => false end.

(** [csv.DictReader(f)], iterated to the end: the first record gives the
    field names, empty records are skipped. *)
Definition dict_reader (lines : list string)
    : list (gmap string (option string)) * option exn :=
  match csv_reader lines with
  | ([], err) => ([], err)
  | (fieldnames :: records, err) =>
      (dict_row fieldnames <$> filter (fun rec => negb (is_nil rec)) records, err)
  end.

Definition QUOTE : string := String DQUOTE EmptyString.

(** ** The exporter: [export_hsk_words_to_csv] *)

Definition NL : string := String LF EmptyString.

Definition opt_str (v : option string) : pyval :=
  match v with Some s => PyStr s | None => PyNone end.

Definition opt_int (v : option Z) : pyval :=
  match v with Some n => PyInt n | None => PyNone end.

(** A fetched row: the six columns in the order of the SELECT list. *)
Definition row_tuple (r : Z * Columns) : list pyval :=
  [PyInt r.1; opt_str (Chinese r.2); opt_str (Pinyin r.2);
   opt_str (Pinyin_With_Tone r.2); opt_str (Japanese_Meaning r.2);
   opt_int (Hsk_Level r.2)].

Definition headers : list pyval :=
  [PyStr "Id"; PyStr "Chinese"; PyStr "Pinyin"; PyStr "Pinyin_With_Tone";
   PyStr "Japanese_Meaning"; PyStr "Hsk_Level"].

(** The [finally] clause of both scripts. *)
Definition close_if_connected (message : string) : M unit :=
  connected <- connection_is_set ;;
  when connected (close ;;; print message).

Definition export_hsk_words_to_csv (env : Env) (output_file : string) : M unit :=
  try_finally
    (try_except
       (db_config <- load_db_config env ;;
        connect env db_config ;;;
        database <- getitem db_config "database" ;;
        print ("Connected to database: " +:+ database) ;;;
        rows <- execute_select_all ;;
        if is_nil rows then print "No data found."
        else
          (open_write output_file
             (writerow headers +:+ writerows (row_tuple <$> rows)) ;;;
           print ("Exported " +:+ pretty (length rows) +:+ " records to "
                  +:+ output_file)))
       (fun e =>
          if is_pymysql_Error e then print ("Database error: " +:+ exn_str e)
          else print ("Error occurred: " +:+ exn_str e)))
    (close_if_connected "Database connection closed.").

(** ** The importer: [import_csv_to_db] *)

(** [int(cell)] for a cell of a [DictReader] row. *)
Definition int_of_cell (cell : option string) : M Z :=
  match cell with
  | None => raise (TypeError "int() argument must be a string, a bytes-like object or a real number, not 'NoneType'")
  | Some s =>
      match py_int s with
      | Some n => ret n
      | None => raise (ValueError ("invalid literal for int() with base 10: " +:+ quoted s))
      end
  end.

(** The [cursor.execute(insert_query, (...))] of the loop: the six
    arguments are evaluated from left to right. *)
Definition insert_row (env : Env) (row : gmap string (option string)) : M unit :=
  id_cell <- getitem row "Id" ;;
  id <- int_of_cell id_cell ;;
  chinese <- getitem row "Chinese" ;;
  pinyin <- getitem row "Pinyin" ;;
  pinyin_with_tone <- getitem row "Pinyin_With_Tone" ;;
  japanese_meaning <- getitem row "Japanese_Meaning" ;;
  level_cell <- getitem row "Hsk_Level" ;;
  hsk_level <- int_of_cell level_cell ;;
  execute_insert env id
    {| Chinese := chinese; Pinyin := pinyin; Pinyin_With_Tone := pinyin_with_tone;
       Japanese_Meaning := japanese_meaning; Hsk_Level := Some hsk_level |}.

(** The body of [for row in reader]. *)
Definition import_row (env : Env) (inserted_count : nat)
    (row : gmap string (option string)) : M nat :=
  insert_row env row ;;;
  let inserted_count := S inserted_count in
  when (Nat.eqb (inserted_count mod 100) 0)
    (print ("  Inserted " +:+ pretty inserted_count +:+ " records...")) ;;;
  ret inserted_count.

Definition raise_if_any (err : option exn) : M unit :=
  match err with
  | Some e => raise e
  | None => ret tt
  end.

Definition level_text (level : option Z) : string :=
  match level with Some n => py_str_int n | None => "None" end.

(** Steps 1 and 2: the table is emptied and its counter reset. *)
Definition delete_and_reset : M unit :=
  print (NL +:+ "Step 1: Deleting existing data...") ;;;
  deleted_count <- execute_delete ;;
  print ("Deleted " +:+ pretty deleted_count +:+ " records") ;;;
  print (NL +:+ "Step 2: Resetting auto increment...") ;;;
  execute_alter_auto_increment 1.

(** Step 3: the rows of the CSV file are inserted, in the open
    transaction; the result is [inserted_count]. *)
Definition insert_rows (env : Env) (csv_file : string) : M nat :=
  print (NL +:+ "Step 3: Importing data from " +:+ csv_file +:+ "...") ;;;
  lines <- open_read csv_file ;;
  inserted_count <- for_fold (dict_reader lines).1 0%nat (import_row env) ;;
  raise_if_any (dict_reader lines).2 ;;;
  ret inserted_count.

(** Step 4: the table is counted. *)
Definition verify_data : M unit :=
  print (NL +:+ "Step 4: Verifying data...") ;;;
  total <- execute_select_count ;;
  level_counts <- execute_select_level_counts ;;
  print ("Total records: " +:+ pretty total) ;;;
  print (NL +:+ "Records by HSK Level:") ;;;
  for_each level_counts
    (fun lc => print ("  HSK " +:+ level_text lc.1 +:+ ": " +:+ pretty lc.2 +:+ " words")).

(** Steps 3 and 4, with the one [commit] of the script between them. *)
Definition insert_and_verify (env : Env) (csv_file : string) : M unit :=
  inserted_count <- insert_rows env csv_file ;;
  commit ;;;
  print (NL +:+ "Completed! Inserted " +:+ pretty inserted_count
         +:+ " records successfully.") ;;;
  verify_data.

(** The three [except] clauses of the importer, in their order. *)
Definition import_handler (csv_file : string) (e : exn) : M unit :=
  if is_FileNotFoundError e then
    print ("Error: CSV file " +:+ quoted csv_file +:+ " not found")
  else if is_pymysql_Error e then
    (print ("Database error: " +:+ exn_str e) ;;;
     connected <- connection_is_set ;;
     when connected (rollback ;;; print "Transaction rolled back"))
  else
    (print ("Error occurred: " +:+ exn_str e) ;;;
     connected <- connection_is_set ;;
     when connected rollback).

Definition import_csv_to_db (env : Env) (csv_file : string) : M unit :=
  try_finally
    (try_except
       (db_config <- load_db_config env ;;
        connect env db_config ;;;
        database <- getitem db_config "database" ;;
        print ("Connected to database: " +:+ database) ;;;
        delete_and_reset ;;;
        insert_and_verify env csv_file)
       (import_handler csv_file))
    (close_if_connected (NL +:+ "Database connection closed.")).

(** ** Runs on concrete inputs *)

Definition sample_document (conn_str : string) : json :=
  JObject [("ConnectionStrings", JObject [("DefaultConnection", JString conn_str)])].

(** A Linux host whose production settings hold [conn_str]; the server lets
    everybody in and the table takes every row. *)
Definition sample_env (conn_str : string) : Env :=
  {| platform_system := "Linux";
     project_root := "/srv/app";
     os_sep := "/";
     config_files := {[ "/srv/app/appsettings.Production.json" := inr (sample_document conn_str) ]};
     server_accepts := fun _ => true;
     column_constraints := fun _ _ => true |}.

Definition sample_conn_str : string :=
  "Server=localhost;Database=hsk;User=app;Password=secret".

(** A state before a run: nothing printed, no connection. *)
Definition initial_state (fs : gmap string string) (t : gmap Z Columns)
    (counter : Z) : State :=
  {| stdout := []; files := fs; hsk_words := t; auto_increment := counter;
     session := None; db_log := [] |}.

Definition word (chinese pinyin toned meaning : string) (level : Z) : Columns :=
  {| Chinese := Some chinese; Pinyin := Some pinyin;
     Pinyin_With_Tone := Some toned; Japanese_Meaning := Some meaning;
     Hsk_Level := Some level |}.

Definition two_words : gmap Z Columns :=
  {[ 1 := word "ni hao" "nihao" "ni3 hao3" "konnichiwa" 1;
     2 := word "xie xie" "xiexie" "xie4 xie4" "arigatou" 1 ]}.

Definition two_words_csv : string :=
  encode_utf8_sig
    ("Id,Chinese,Pinyin,Pinyin_With_Tone,Japanese_Meaning,Hsk_Level" +:+ CRLF
     +:+ "1,ni hao,nihao,ni3 hao3,konnichiwa,1" +:+ CRLF
     +:+ "2,xie xie,xiexie,xie4 xie4,arigatou,1" +:+ CRLF).

(** * Notions for the statements and the proofs *)

(** ** Computations that only print *)

(** [prints m r lines]: whatever the state, [m] ends with [r] and has
    appended [lines] to the console, nothing else. *)
Definition prints {A} (m : M A) (r : result A) (lines : list string) : Prop :=
  forall st, m st = (r, set_stdout (fun out => out ++ lines) st).

(** ** The items of the connection string *)

(** The name, trimmed and in lower case, and the trimmed value of an item
    [name=value]; [None] for an item without '='. *)
Definition item_entry (item : string) : option (string * string) :=
  if str_contains "=" item then
    match str_split1 "=" item with
    | [key; value] => Some (lower (strip key), strip value)
    | _ => None
    end
  else None.

(** The field of the configuration that a name of the connection string
    fills. *)
Definition field_of_key (key : string) : option string :=
  if string_eqb key "server" then Some "host"
  else if string_eqb key "database" then Some "database"
  else if string_eqb key "user" then Some "user"
  else if string_eqb key "password" then Some "password"
  else None.

(** What the loop over the items does with one item. *)
Definition store_item (d : gmap string string) (item : string) : gmap string string :=
  match item_entry item with
  | Some (key, value) =>
      match field_of_key key with
      | Some f => <[f := value]> d
      | None => d
      end
  | None => d
  end.


(** ** What the loader does with the settings file *)

(** The connection string of the settings file of this host, when the file
    is a JSON document that has one. *)
Definition connection_string (env : Env) : option string :=
  match config_files env !! config_path env with
  | Some (inr (JObject members)) =>
      match assoc_last "ConnectionStrings" members with
      | Some (JObject members') =>
          match assoc_last "DefaultConnection" members' with
          | Some (JString s) => Some s
          | _ => None
          end
      | _ => None
      end
  | _ => None
  end.

(** The dictionary the loader builds from a connection string. *)
Definition loaded_config (conn_str : string) : gmap string string :=
  <["charset" := "utf8mb4"]> (fold_left store_item (str_split ";" conn_str) ∅).

Definition detected_line (env : Env) : string :=
  "Detected OS: " +:+ platform_system env +:+ " -> Using "
  +:+ (config_file_for (platform_system env)).2 +:+ " environment".

Definition loaded_line (env : Env) : string :=
  "Loaded config: " +:+ (config_file_for (platform_system env)).1.

Definition load_error_line (env : Env) (e : exn) : string :=
  if is_FileNotFoundError e
  then "Error: Config file not found: " +:+ config_path env
  else "Error loading config: " +:+ exn_str e.

(** The end of the loader, once the dictionary is built: the three lines
    it prints need [host], [database] and [user]. *)
Definition loader_report (env : Env) (cfg : gmap string string)
    : result (gmap string string) * list string :=
  match cfg !! "host" with
  | None => (Raise (KeyError "host"), [load_error_line env (KeyError "host")])
  | Some h =>
      match cfg !! "database" with
      | None => (Raise (KeyError "database"),
                 ["  Host: " +:+ h; load_error_line env (KeyError "database")])
      | Some d =>
          match cfg !! "user" with
          | None => (Raise (KeyError "user"),
                     ["  Host: " +:+ h; "  Database: " +:+ d;
                      load_error_line env (KeyError "user")])
          | Some u => (Return cfg,
                       ["  Host: " +:+ h; "  Database: " +:+ d; "  User: " +:+ u])
          end
      end
  end.

(** ** The fields of the configuration *)

(** A state in which nothing has happened yet. *)
Definition st0 : State := initial_state ∅ ∅ 1.


(** ** The password and the console *)

(** Two items that are the same, or that both set the password, under the
    same name, to values of their own. *)
Definition differ_in_password_value (item1 item2 : string) : Prop :=
  item1 = item2
  \/ exists name v1 v2,
       item1 = name +:+ "=" +:+ v1 /\ item2 = name +:+ "=" +:+ v2
       /\ lower (strip name) = "password".

(** Two dictionaries that agree on every field but [password]. *)
Definition agree_off_password (d1 d2 : gmap string string) : Prop :=
  forall f, f <> "password" -> d1 !! f = d2 !! f.

(** ** The scripts when the loader fails *)

Definition export_error_line (e : exn) : string :=
  if is_pymysql_Error e then "Database error: " +:+ exn_str e
  else "Error occurred: " +:+ exn_str e.

Definition import_error_line (csv_file : string) (e : exn) : string :=
  if is_FileNotFoundError e then "Error: CSV file " +:+ quoted csv_file +:+ " not found"
  else if is_pymysql_Error e then "Database error: " +:+ exn_str e
  else "Error occurred: " +:+ exn_str e.

(** A Windows host that has the production settings only. *)
Definition no_settings_env : Env :=
  {| platform_system := "Windows";
     project_root := "/srv/app";
     os_sep := "/";
     config_files := {[ "/srv/app/appsettings.Production.json" := inr (sample_document sample_conn_str) ]};
     server_accepts := fun _ => true;
     column_constraints := fun _ _ => true |}.

(** ** The exporter once connected *)

Definition connected_line (d : string) : string := "Connected to database: " +:+ d.

(** The text of the CSV file for the fetched rows. *)
Definition csv_text (rows : list (Z * Columns)) : string :=
  writerow headers +:+ writerows (row_tuple <$> rows).


(** ** Runs of the importer that do not reach [commit] *)

(** A CSV file whose second row has no number for [Id]. *)
Definition bad_id_csv : string :=
  encode_utf8_sig
    ("Id,Chinese,Pinyin,Pinyin_With_Tone,Japanese_Meaning,Hsk_Level" +:+ CRLF
     +:+ "1,ni hao,nihao,ni3 hao3,konnichiwa,1" +:+ CRLF
     +:+ "two,xie xie,xiexie,xie4 xie4,arigatou,1" +:+ CRLF).

(** A CSV file whose two rows have the same [Id]: the second INSERT
    fails on the primary key. *)
Definition duplicate_id_csv : string :=
  encode_utf8_sig
    ("Id,Chinese,Pinyin,Pinyin_With_Tone,Japanese_Meaning,Hsk_Level" +:+ CRLF
     +:+ "1,ni hao,nihao,ni3 hao3,konnichiwa,1" +:+ CRLF
     +:+ "1,xie xie,xiexie,xie4 xie4,arigatou,1" +:+ CRLF).

Definition is_rollback (ev : db_event) : bool :=
  match ev with EvRollback => true | _ => false end.

(** ** Export followed by import *)

(** A table of one word whose first text holds a carriage return, and the
    same with a line feed in its place. *)
Definition cr_word : gmap Z Columns :=
  {[ 1 := word ("a" +:+ String CR "b") "p" "t" "m" 1 ]}.

Definition lf_word : gmap Z Columns :=
  {[ 1 := word ("a" +:+ String LF "b") "p" "t" "m" 1 ]}.

(** ** What a run depends on, and what it leaves behind *)

(** Two states with the same files, the same table and counter, and the
    same view in the open connection: they may differ in what was printed
    and in the log of driver calls. *)
Definition db_equiv (st st' : State) : Prop :=
  files st = files st' /\ hsk_words st = hsk_words st'
  /\ auto_increment st = auto_increment st' /\ session st = session st'.

(** [stable m]: [m] writes no file, and from equivalent states it ends the
    same way in equivalent states. *)
Definition stable {A} (m : M A) : Prop :=
  (forall st, files (m st).2 = files st)
  /\ (forall st st', db_equiv st st' ->
        (m st).1 = (m st').1 /\ db_equiv (m st).2 (m st').2).

(** What is left of the importer once the table is emptied. *)
Definition import_after_reset (env : Env) (csv_file : string) : M unit :=
  try_finally
    (try_except (insert_and_verify env csv_file) (import_handler csv_file))
    (close_if_connected (NL +:+ "Database connection closed.")).

(** The state after steps 1 and 2: the table is empty, for everybody, and
    the counter is at 1. *)
Definition reset_state (st : State) (cfg : gmap string string)
    (lines : list string) (d : string) : State :=
  {| stdout := stdout st ++ lines
               ++ [connected_line d;
                   NL +:+ "Step 1: Deleting existing data...";
                   "Deleted " +:+ pretty (size (hsk_words st)) +:+ " records";
                   NL +:+ "Step 2: Resetting auto increment..."];
     files := files st;
     hsk_words := ∅;
     auto_increment := 1;
     session := Some ∅;
     db_log := db_log st
               ++ [EvConnect cfg; EvExecute DELETE_FROM_hsk_words;
                   EvExecute (ALTER_TABLE_hsk_words_AUTO_INCREMENT 1)] |}.

(** ** Runs of the importer that connect and fail *)

(** [keeps_table m]: [m] does not touch the committed rows. *)
Definition keeps_table {A} (m : M A) : Prop :=
  forall st, hsk_words (m st).2 = hsk_words st.

(** The table emptied and the counter reset, in a connection that sees the
    table empty. *)
Definition emptied (st : State) : State :=
  set_auto_increment 1 (set_hsk_words ∅ (set_session (Some ∅) st)).

(** * Further notions: the scripts as wholes *)

(** The driver calls of a run that only reads: a connection, the SELECT
    of the exporter, the closing. *)
Definition is_read_only (ev : db_event) : bool :=
  match ev with
  | EvConnect _ | EvExecute SELECT_FROM_hsk_words_ORDER_BY_Id | EvClose => true
  | _ => false
  end.












(** ** Rows that come back from a CSV file as they went in *)




(** A host whose server refuses the login. *)
Definition refusing_env : Env :=
  {| platform_system := "Linux";
     project_root := "/srv/app";
     os_sep := "/";
     config_files := {[ "/srv/app/appsettings.Production.json" := inr (sample_document sample_conn_str) ]};
     server_accepts := fun _ => false;
     column_constraints := fun _ _ => true |}.

(** ** The two [main] functions *)

(** [s * n] *)
Fixpoint str_repeat (s : string) (n : nat) : string :=
  match n with
  | O => EmptyString
  | S n' => s +:+ str_repeat s n'
  end.

(** [input(prompt)]: the prompt goes to the console, where it is kept as
    an item of its own; [answer] is the line that is typed, without its
    end of line, and [None] the end of the input, at which [input]
    raises [EOFError]. *)
Definition input (prompt : string) (answer : option string) : M string :=
  print prompt ;;;
  match answer with
  | Some line => ret line
  | None => raise (OtherError "EOF when reading a line")
  end.

Module import_csv.

Definition csv_file : string := "hsk_words_20260201_125927.csv".

(** [main()] of [import_csv.py], for the answer given at the prompt. *)
Definition main (env : Env) (answer : option string) : M unit :=
  print (str_repeat "=" 50) ;;;
  print "HSK Words CSV Import Script" ;;;
  print (str_repeat "=" 50) ;;;
  print (NL +:+ "This will:") ;;;
  print "  1. DELETE all existing data from hsk_words table" ;;;
  print ("  2. Import data from: " +:+ csv_file) ;;;
  confirm <- input (NL +:+ "Proceed? (y/n): ") answer ;;
  if string_eqb (lower confirm) "y"
  then import_csv_to_db env csv_file
  else print "Cancelled.".

End import_csv.

(** What [datetime.now()] returns. *)
Record datetime : Type := {
  year : N; month : N; day : N; hour : N; minute : N; second : N;
}.

(** The fields of a [datetime] are in these ranges; the years before 1000,
    which [strftime] does not write the same way on every platform, are
    left out. *)
Definition valid_datetime (t : datetime) : bool :=
  ((1000 <=? year t) && (year t <=? 9999)
   && (1 <=? month t) && (month t <=? 12)
   && (1 <=? day t) && (day t <=? 31)
   && (hour t <? 24) && (minute t <? 60) && (second t <? 60))%N.

(** A number in decimal, filled with zeros on the left up to [width]:
    what [%m], [%d], [%H], [%M] and [%S] write for [width] 2, and [%Y] for
    [width] 4. *)
Definition zero_pad (width : nat) (n : N) : string :=
  let s := pretty n in
  str_repeat "0" (width - String.length s) +:+ s.

(** [t.strftime('%Y%m%d_%H%M%S')] *)
Definition strftime_Ymd_HMS (t : datetime) : string :=
  zero_pad 4 (year t) +:+ zero_pad 2 (month t) +:+ zero_pad 2 (day t)
  +:+ "_" +:+ zero_pad 2 (hour t) +:+ zero_pad 2 (minute t)
  +:+ zero_pad 2 (second t).

Module createcsv.

Definition output_file (now : datetime) : string :=
  "hsk_words_" +:+ strftime_Ymd_HMS now +:+ ".csv".

(** [main()] of [createcsv.py], for the time that the clock gives. *)
Definition main (env : Env) (now : datetime) : M unit :=
  export_hsk_words_to_csv env (output_file now).

End createcsv.


(** * Properties *)

(** ** The model on small inputs *)

Example py_int_examples :
  py_int "42" = Some 42 /\ py_int " -7 " = Some (-7) /\ py_int "1_000" = Some 1000
  /\ py_int "" = None /\ py_int "abc" = None /\ py_int "1__0" = None
  /\ py_int "3.0" = None /\ py_int (py_str_int (-120)) = Some (-120).
Proof. split_and!; vm_compute; reflexivity. Qed.

Example str_split_examples :
  str_split ";" "a;b" = ["a"; "b"] /\ str_split ";" "" = [""]
  /\ str_split ";" "a;" = ["a"; ""] /\ str_split1 "=" "k=v=w" = ["k"; "v=w"]
  /\ str_split1 "=" "kv" = ["kv"] /\ strip "  a b " = "a b"
  /\ lower "SerVer" = "server".
Proof. split_and!; vm_compute; reflexivity. Qed.

Example writerow_examples :
  writerow [PyInt 1; PyStr "a,b"; PyNone; PyStr "x"]
    = "1," +:+ QUOTE +:+ "a,b" +:+ QUOTE +:+ ",,x" +:+ CRLF
  /\ writerow [PyStr ("say " +:+ QUOTE +:+ "hi" +:+ QUOTE)]
    = QUOTE +:+ "say " +:+ QUOTE +:+ QUOTE +:+ "hi" +:+ QUOTE +:+ QUOTE +:+ QUOTE +:+ CRLF
  /\ writerow [PyNone] = QUOTE +:+ QUOTE +:+ CRLF
  /\ writerow [] = CRLF.
Proof. split_and!; vm_compute; reflexivity. Qed.

Example csv_reader_examples :
  csv_reader (readlines ("a,b" +:+ String LF ("1," +:+ QUOTE +:+ "x,"
                +:+ QUOTE +:+ QUOTE +:+ "y" +:+ String LF ("z" +:+ QUOTE +:+ String LF EmptyString))))
    = ([["a"; "b"]; ["1"; "x," +:+ QUOTE +:+ "y" +:+ String LF "z"]], None)
  /\ csv_reader (readlines (String LF ("a" +:+ String LF EmptyString)))
    = ([[]; ["a"]], None)
  /\ csv_reader (readlines "a,") = ([["a"; ""]], None)
  /\ dict_reader (readlines ("Id,Chinese" +:+ String LF ("7" +:+ String LF EmptyString)))
    = ([ {["Id" := Some "7"; "Chinese" := None]} ], None).
Proof. split_and!; vm_compute; reflexivity. Qed.

Example export_two_words :
  files (final (export_hsk_words_to_csv (sample_env sample_conn_str) "out.csv")
           (initial_state ∅ two_words 3))
  = {[ "out.csv" := two_words_csv ]}.
Proof. vm_compute. reflexivity. Qed.

Example import_two_words :
  let st := final (import_csv_to_db (sample_env sample_conn_str) "in.csv")
              (initial_state {[ "in.csv" := two_words_csv ]} ∅ 1) in
  hsk_words st = two_words /\ auto_increment st = 3 /\ session st = None.
Proof. split_and!; vm_compute; reflexivity. Qed.

(** ** Computations that only print *)

Lemma set_stdout_app l1 l2 st :
  set_stdout (fun out => out ++ l2) (set_stdout (fun out => out ++ l1) st)
  = set_stdout (fun out => out ++ (l1 ++ l2)) st.
Proof. unfold set_stdout; simpl. by rewrite app_assoc. Qed.

Lemma set_stdout_nil st : set_stdout (fun out => out ++ []) st = st.
Proof. destruct st; unfold set_stdout; simpl. by rewrite app_nil_r. Qed.

Lemma prints_ret {A} (a : A) : prints (ret a) (Return a) [].
Proof. intros st. unfold ret. by rewrite set_stdout_nil. Qed.

Lemma prints_raise {A} (e : exn) : prints (@raise A e) (Raise e) [].
Proof. intros st. unfold raise. by rewrite set_stdout_nil. Qed.

Lemma prints_print line : prints (print line) (Return tt) [line].
Proof. by intros st. Qed.

Lemma prints_bind {A B} (m : M A) (k : A -> M B) a l1 r l2 :
  prints m (Return a) l1 -> prints (k a) r l2 -> prints (bind m k) r (l1 ++ l2).
Proof.
  intros Hm Hk st. unfold bind. rewrite Hm, Hk. by rewrite set_stdout_app.
Qed.

Lemma prints_bind_raise {A B} (m : M A) (k : A -> M B) e l :
  prints m (Raise e) l -> prints (bind m k) (Raise e) l.
Proof. intros Hm st. unfold bind. by rewrite Hm. Qed.

Lemma prints_try_return {A} (m : M A) h a l :
  prints m (Return a) l -> prints (try_except m h) (Return a) l.
Proof. intros Hm st. unfold try_except. by rewrite Hm. Qed.

Lemma prints_try_raise {A} (m : M A) h e l1 r l2 :
  prints m (Raise e) l1 -> prints (h e) r l2 -> prints (try_except m h) r (l1 ++ l2).
Proof.
  intros Hm Hh st. unfold try_except. rewrite Hm, Hh. by rewrite set_stdout_app.
Qed.

Lemma prints_inj {A} (m : M A) r1 l1 r2 l2 :
  prints m r1 l1 -> prints m r2 l2 -> r1 = r2 /\ l1 = l2.
Proof.
  intros H1 H2.
  pose proof (H1 (initial_state ∅ ∅ 0)) as E1.
  rewrite (H2 (initial_state ∅ ∅ 0)) in E1.
  injection E1 as -> E. split; [done|]. by inversion E.
Qed.

(** ** The loop over the items of the connection string *)

Lemma ascii_eqb_sym a b : ascii_eqb a b = ascii_eqb b a.
Proof. unfold ascii_eqb. apply bool_decide_ext. naive_solver. Qed.

Lemma str_split1_contains c s :
  str_contains c s = true -> exists k v, str_split1 c s = [k; v].
Proof.
  induction s as [|d s IH]; simpl; [done|].
  rewrite (ascii_eqb_sym c d). destruct (ascii_eqb d c); simpl.
  - eauto.
  - intros H. destruct (IH H) as (k & v & ->). eauto.
Qed.

Lemma parse_item_store d item : parse_item d item = ret (store_item d item).
Proof.
  unfold parse_item, store_item, item_entry, field_of_key.
  destruct (str_contains "=" item) eqn:Hc; [|done].
  destruct (str_split1_contains _ _ Hc) as (k & v & ->).
  by repeat case_match.
Qed.

Lemma for_fold_parse_item items d :
  for_fold items d parse_item = ret (fold_left store_item items d).
Proof.
  revert d. induction items as [|item items IH]; intros d; simpl; [done|].
  rewrite parse_item_store. unfold bind, ret at 1. by rewrite IH.
Qed.

Lemma field_of_key_Some key f :
  field_of_key key = Some f ->
  (key = "server" /\ f = "host") \/ (key = "database" /\ f = "database")
  \/ (key = "user" /\ f = "user") \/ (key = "password" /\ f = "password").
Proof.
  unfold field_of_key, string_eqb.
  repeat case_bool_decide; naive_solver.
Qed.




(** ** What the loader does with the settings file *)

Ltac unfold_loader :=
  unfold load_db_config, json_load, subscript, split_method, getitem,
    bind, try_except, print, raise, ret.

Ltac stdout_eq :=
  unfold set_stdout; simpl; rewrite <- ?app_assoc; reflexivity.

Lemma load_db_config_absent env :
  config_files env !! config_path env = None ->
  prints (load_db_config env) (Raise (FileNotFoundError (config_path env)))
    [detected_line env; "Error: Config file not found: " +:+ config_path env].
Proof.
  intros H st. unfold config_path in H. unfold_loader. rewrite H. simpl.
  f_equal. stdout_eq.
Qed.

Ltac loader_failed :=
  unfold print, raise, load_error_line, config_path;
  match goal with |- context [is_FileNotFoundError ?e] =>
    destruct (is_FileNotFoundError e) end;
  simpl; f_equal; stdout_eq.

Lemma load_db_config_no_connection_string env :
  connection_string env = None ->
  exists e, prints (load_db_config env) (Raise e)
              [detected_line env; load_error_line env e].
Proof.
  unfold connection_string, config_path. intros H.
  destruct (config_files env !! _) as [[e|doc]|] eqn:Hf.
  - exists e. intros st. unfold_loader. rewrite Hf. loader_failed.
  - assert (exists e, forall st : State,
      (connection_strings <- subscript doc "ConnectionStrings" ;;
       conn_str <- subscript connection_strings "DefaultConnection" ;;
       split_method conn_str) st = (Raise e, st)) as [e He].
    { unfold subscript, split_method, bind, raise, ret.
      destruct doc as [| | | | |members]; try by eexists.
      destruct (assoc_last _ members) as [v|]; [|by eexists].
      destruct v as [| | | | |members']; try by eexists.
      destruct (assoc_last _ members') as [v|]; [|by eexists].
      destruct v; try discriminate H; by eexists. }
    exists e. intros st. unfold load_db_config, json_load.
    rewrite Hf. unfold bind at 1. unfold print at 1. unfold try_except.
    unfold bind at 1. unfold ret at 1.
    unfold bind in He |- *. unfold ret in He.
    specialize (He (set_stdout (fun out => out ++ [detected_line env]) st)).
    fold (detected_line env).
    destruct (subscript doc "ConnectionStrings" _) as [[v|e1] st1] eqn:E1.
    + destruct (subscript v "DefaultConnection" st1) as [[v2|e2] st2] eqn:E2.
      * destruct (split_method v2 st2) as [[v3|e3] st3] eqn:E3; [done|].
        injection He as -> ->. loader_failed.
      * injection He as -> ->. loader_failed.
    + injection He as -> ->. loader_failed.
  - exists (FileNotFoundError (config_path env)).
    by apply load_db_config_absent.
Qed.

Lemma load_db_config_connection_string env s :
  connection_string env = Some s ->
  prints (load_db_config env) (loader_report env (loaded_config s)).1
    (detected_line env :: loaded_line env :: (loader_report env (loaded_config s)).2).
Proof.
  unfold connection_string, config_path. intros H.
  destruct (config_files env !! _) as [[e|[| | | | |members]]|] eqn:Hf; try done.
  destruct (assoc_last _ members) as [[| | | | |members']|] eqn:H1; try done.
  destruct (assoc_last _ members') as [[| | |s'| |]|] eqn:H2; try done.
  injection H as ->. intros st.
  unfold load_db_config, json_load. rewrite Hf.
  unfold subscript, split_method, bind, try_except, print, ret.
  rewrite H1, H2. rewrite for_fold_parse_item. unfold ret.
  fold (loaded_config s). unfold loader_report, getitem, raise, ret.
  destruct (loaded_config s !! "host") as [h|]; [|simpl; f_equal; stdout_eq].
  destruct (loaded_config s !! "database") as [d|]; [|simpl; f_equal; stdout_eq].
  destruct (loaded_config s !! "user") as [u|]; simpl; f_equal; stdout_eq.
Qed.

(** In every environment the loader only prints, and what it returns and
    prints does not depend on the state. *)
Lemma load_db_config_prints env :
  exists r lines, prints (load_db_config env) r lines.
Proof.
  destruct (connection_string env) as [s|] eqn:H.
  - eauto using load_db_config_connection_string.
  - destruct (load_db_config_no_connection_string env H) as [e He]. eauto.
Qed.

(** When the loader returns, the settings file held a connection string
    and the dictionary is the one built from it, with the three fields
    that are printed. *)
Lemma load_db_config_Return env st cfg :
  outcome (load_db_config env) st = Return cfg ->
  exists s h d u,
    connection_string env = Some s /\ cfg = loaded_config s
    /\ cfg !! "host" = Some h /\ cfg !! "database" = Some d
    /\ cfg !! "user" = Some u
    /\ prints (load_db_config env) (Return cfg)
         [detected_line env; loaded_line env; "  Host: " +:+ h;
          "  Database: " +:+ d; "  User: " +:+ u].
Proof.
  unfold outcome. intros H.
  destruct (connection_string env) as [s|] eqn:Hs.
  - pose proof (load_db_config_connection_string env s Hs) as Hp.
    rewrite (Hp st) in H. simpl in H. exists s.
    unfold loader_report in *.
    destruct (loaded_config s !! "host") as [h|] eqn:Eh; [|done].
    destruct (loaded_config s !! "database") as [d|] eqn:Ed; [|done].
    destruct (loaded_config s !! "user") as [u|] eqn:Eu; [|done].
    simpl in *. injection H as <-. exists h, d, u. done.
  - destruct (load_db_config_no_connection_string env Hs) as [e He].
    by rewrite (He st) in H.
Qed.

(** ** Items spelled [name=value] *)

Lemma str_contains_app_sep c k v :
  str_contains c (k +:+ String c v) = true.
Proof.
  induction k as [|d k IH]; simpl.
  - unfold ascii_eqb. by rewrite bool_decide_eq_true_2.
  - rewrite IH. by destruct (ascii_eqb c d).
Qed.

Lemma str_split1_app_sep c k v :
  str_contains c k = false -> str_split1 c (k +:+ String c v) = [k; v].
Proof.
  induction k as [|d k IH]; simpl.
  - intros _. unfold ascii_eqb. by rewrite bool_decide_eq_true_2.
  - rewrite (ascii_eqb_sym c d). destruct (ascii_eqb d c); simpl; [done|].
    intros H. by rewrite IH.
Qed.

Lemma item_entry_name_value k v :
  str_contains "=" k = false ->
  item_entry (k +:+ "=" +:+ v) = Some (lower (strip k), strip v).
Proof.
  intros H. unfold item_entry.
  change ("=" +:+ v) with (String "="%char v).
  by rewrite str_contains_app_sep, str_split1_app_sep.
Qed.

Lemma str_contains_lstrip c s :
  is_space c = false -> str_contains c (lstrip s) = str_contains c s.
Proof.
  intros Hc. induction s as [|d s IH]; simpl; [done|].
  destruct (is_space d) eqn:Hd; [|done].
  rewrite IH. unfold ascii_eqb. rewrite bool_decide_eq_false_2; [done|].
  intros ->. congruence.
Qed.

Lemma str_contains_rstrip c s :
  is_space c = false -> str_contains c (rstrip s) = str_contains c s.
Proof.
  intros Hc. induction s as [|d s IH]; simpl; [done|].
  destruct (rstrip s) as [|d' r] eqn:Hr.
  - simpl in IH. rewrite <- IH. destruct (is_space d) eqn:Hd; simpl.
    + unfold ascii_eqb. rewrite bool_decide_eq_false_2; [done|].
      intros ->. congruence.
    + by rewrite orb_false_r.
  - simpl. simpl in IH. by rewrite IH.
Qed.

Lemma str_contains_lower c s :
  lower_char c = c -> (forall d, lower_char d = c -> d = c) ->
  str_contains c (lower s) = str_contains c s.
Proof.
  intros Hc Hinj. induction s as [|d s IH]; simpl; [done|].
  rewrite IH. f_equal. unfold ascii_eqb. apply bool_decide_ext.
  split; [intros ->; symmetry; by apply Hinj|intros ->; by rewrite Hc].
Qed.

Lemma lower_char_equals d : lower_char d = "="%char -> d = "="%char.
Proof.
  destruct d as [[] [] [] [] [] [] [] []]; vm_compute; congruence.
Qed.

(** A name that the loader takes for one of its keys holds no '='. *)
Lemma normalised_name_no_equals k f :
  field_of_key (lower (strip k)) = Some f -> str_contains "=" k = false.
Proof.
  intros Hf.
  rewrite <- (str_contains_lstrip "=" k), <- (str_contains_rstrip "="), 
    <- (str_contains_lower "="); try done; [|apply lower_char_equals].
  fold (strip k).
  apply field_of_key_Some in Hf.
  destruct Hf as [[-> _]|[[-> _]|[[-> _]|[-> _]]]]; done.
Qed.

Lemma store_item_recognised d k v f :
  field_of_key (lower (strip k)) = Some f ->
  store_item d (k +:+ "=" +:+ v) = <[f := strip v]> d.
Proof.
  intros Hf. unfold store_item.
  rewrite item_entry_name_value by (by eapply normalised_name_no_equals).
  by rewrite Hf.
Qed.


Lemma store_item_no_equals d item :
  str_contains "=" item = false -> store_item d item = d.
Proof. intros H. unfold store_item, item_entry. by rewrite H. Qed.

(** ** The fields of the configuration *)







(** ** The character set *)




(** ** The password and the console *)

Lemma store_item_agree d1 d2 item1 item2 :
  agree_off_password d1 d2 ->
  differ_in_password_value item1 item2 ->
  agree_off_password (store_item d1 item1) (store_item d2 item2).
Proof.
  intros Hd [->|(name & v1 & v2 & -> & -> & Hn)] f Hf.
  - unfold store_item. destruct (item_entry item2) as [[k v]|]; [|by apply Hd].
    destruct (field_of_key k) as [f'|]; [|by apply Hd].
    destruct (decide (f' = f)) as [->|Hne].
    + by rewrite !lookup_insert_eq.
    + rewrite !lookup_insert_ne by done. by apply Hd.
  - rewrite !(store_item_recognised _ name _ "password") by (by rewrite Hn).
    rewrite !lookup_insert_ne by done. by apply Hd.
Qed.

Lemma fold_store_item_agree items1 items2 d1 d2 :
  Forall2 differ_in_password_value items1 items2 ->
  agree_off_password d1 d2 ->
  agree_off_password (fold_left store_item items1 d1) (fold_left store_item items2 d2).
Proof.
  intros H. revert d1 d2.
  induction H as [|i1 i2 l1 l2 Hi _ IH]; intros d1 d2 Hd; simpl; [done|].
  apply IH. by apply store_item_agree.
Qed.

Lemma loaded_config_agree s1 s2 :
  Forall2 differ_in_password_value (str_split ";" s1) (str_split ";" s2) ->
  agree_off_password (loaded_config s1) (loaded_config s2).
Proof.
  intros H f Hf. unfold loaded_config.
  destruct (decide ("charset" = f)) as [<-|Hne].
  - by rewrite !lookup_insert_eq.
  - rewrite !lookup_insert_ne by done.
    by apply fold_store_item_agree.
Qed.

(** C10: on a given host, take two settings files whose connection
    strings differ only in values given to the password. The loader
    prints the same lines for both and ends the same way: with the same
    exception, or with two configurations that have the same [host],
    [database], [user] and [charset]. *)
Theorem load_db_config_password_independent env1 env2 st s1 s2 :
  platform_system env1 = platform_system env2 ->
  connection_string env1 = Some s1 ->
  connection_string env2 = Some s2 ->
  Forall2 differ_in_password_value (str_split ";" s1) (str_split ";" s2) ->
  stdout (final (load_db_config env1) st) = stdout (final (load_db_config env2) st)
  /\ match outcome (load_db_config env1) st, outcome (load_db_config env2) st with
     | Return cfg1, Return cfg2 =>
         cfg1 !! "host" = cfg2 !! "host"
         /\ cfg1 !! "database" = cfg2 !! "database"
         /\ cfg1 !! "user" = cfg2 !! "user"
         /\ cfg1 !! "charset" = cfg2 !! "charset"
     | Raise e1, Raise e2 => e1 = e2
     | _, _ => False
     end.
Proof.
  intros Hsys H1 H2 Hitems.
  pose proof (loaded_config_agree s1 s2 Hitems) as Hagree.
  unfold final, outcome.
  rewrite (load_db_config_connection_string env1 s1 H1 st),
    (load_db_config_connection_string env2 s2 H2 st). simpl.
  unfold detected_line, loaded_line, loader_report, load_error_line.
  rewrite Hsys.
  rewrite <- !(Hagree "host"), <- !(Hagree "database"), <- !(Hagree "user") by done.
  destruct (loaded_config s1 !! "host") as [h|] eqn:Eh; [|done].
  destruct (loaded_config s1 !! "database") as [d|] eqn:Ed; [|done].
  destruct (loaded_config s1 !! "user") as [u|] eqn:Eu; [|done].
  simpl. rewrite Eh, Ed, Eu.
  rewrite <- !(Hagree "host"), <- !(Hagree "database"), <- !(Hagree "user"),
    <- !(Hagree "charset") by done.
  by rewrite Eh, Ed, Eu.
Qed.

Lemma load_db_config_password_independent_witness :
  let env1 := sample_env "Server=h;Database=d;User=u; Password =one;x" in
  let env2 := sample_env "Server=h;Database=d;User=u; Password =another=one;x" in
  stdout (final (load_db_config env1) st0) = stdout (final (load_db_config env2) st0).
Proof.
  intros env1 env2.
  refine (proj1 (load_db_config_password_independent env1 env2 st0 _ _
                   eq_refl eq_refl eq_refl _)).
  vm_compute str_split.
  repeat (constructor; [by left|]).
  constructor; [|by repeat constructor].
  right. by exists " Password ", "one", "another=one".
Defined.

(** ** The scripts when the loader fails *)

Lemma close_if_connected_no_session message st :
  session st = None -> close_if_connected message st = (Return tt, st).
Proof.
  intros H. unfold close_if_connected, connection_is_set, bind. by rewrite H.
Qed.

Lemma export_loader_raises env output_file st e lines :
  prints (load_db_config env) (Raise e) lines ->
  session st = None ->
  export_hsk_words_to_csv env output_file st
  = (Return tt, set_stdout (fun out => out ++ lines ++ [export_error_line e]) st).
Proof.
  intros Hp Hs. unfold export_hsk_words_to_csv, try_finally, try_except.
  unfold bind at 1. rewrite (Hp st).
  assert ((if is_pymysql_Error e then print ("Database error: " +:+ exn_str e)
           else print ("Error occurred: " +:+ exn_str e))
          = print (export_error_line e)) as ->.
  { unfold export_error_line. by destruct (is_pymysql_Error e). }
  unfold print. rewrite close_if_connected_no_session by done.
  by rewrite set_stdout_app.
Qed.

Lemma import_loader_raises env csv_file st e lines :
  prints (load_db_config env) (Raise e) lines ->
  session st = None ->
  import_csv_to_db env csv_file st
  = (Return tt, set_stdout (fun out => out ++ lines ++ [import_error_line csv_file e]) st).
Proof.
  intros Hp Hs. unfold import_csv_to_db, try_finally, try_except.
  unfold bind at 1. rewrite (Hp st).
  unfold import_handler, import_error_line.
  destruct (is_FileNotFoundError e).
  - unfold print. rewrite close_if_connected_no_session by done.
    by rewrite set_stdout_app.
  - destruct (is_pymysql_Error e).
    + unfold bind, print, connection_is_set. simpl. rewrite Hs. simpl.
      unfold ret. rewrite close_if_connected_no_session by done.
      by rewrite set_stdout_app.
    + unfold bind, print, connection_is_set. simpl. rewrite Hs. simpl.
      unfold ret. rewrite close_if_connected_no_session by done.
      by rewrite set_stdout_app.
Qed.

(** C9: when the settings file chosen for the host is absent, the loader
    raises [FileNotFoundError] for its path and says so on the console; a
    run of either script that starts without a connection then ends
    without a single call to the database driver: no connection is
    attempted, and the table, its counter and the files stay as they
    were. The script adds its own line for the exception: the exporter
    prints it as an error that occurred, the importer as a CSV file not
    found. *)
Theorem config_absent_no_connection env st :
  config_files env !! config_path env = None ->
  session st = None ->
  let e := FileNotFoundError (config_path env) in
  let not_found := "Error: Config file not found: " +:+ config_path env in
  load_db_config env st
  = (Raise e, set_stdout (fun out => out ++ [detected_line env; not_found]) st)
  /\ (forall output_file,
        let st' := final (export_hsk_words_to_csv env output_file) st in
        db_log st' = db_log st /\ session st' = None
        /\ hsk_words st' = hsk_words st /\ auto_increment st' = auto_increment st
        /\ files st' = files st
        /\ stdout st' = stdout st ++ [detected_line env; not_found;
                                       "Error occurred: " +:+ exn_str e])
  /\ (forall csv_file,
        let st' := final (import_csv_to_db env csv_file) st in
        db_log st' = db_log st /\ session st' = None
        /\ hsk_words st' = hsk_words st /\ auto_increment st' = auto_increment st
        /\ files st' = files st
        /\ stdout st' = stdout st ++ [detected_line env; not_found;
                                       "Error: CSV file " +:+ quoted csv_file
                                       +:+ " not found"]).
Proof.
  intros Habsent Hs e not_found.
  pose proof (load_db_config_absent env Habsent) as Hp.
  split; [apply Hp|]. split.
  - intros output_file. unfold final. simpl.
    by rewrite (export_loader_raises _ _ _ _ _ Hp Hs).
  - intros csv_file. unfold final. simpl.
    by rewrite (import_loader_raises _ _ _ _ _ Hp Hs).
Qed.

Lemma config_absent_no_connection_witness :
  db_log (final (import_csv_to_db no_settings_env "in.csv")
            (initial_state {[ "in.csv" := two_words_csv ]} two_words 3)) = []
  /\ db_log (final (export_hsk_words_to_csv no_settings_env "out.csv")
               (initial_state ∅ two_words 3)) = [].
Proof.
  split.
  - refine (proj1 (proj2 (proj2 (config_absent_no_connection no_settings_env
                                    (initial_state {[ "in.csv" := two_words_csv ]} two_words 3)
                                    _ _)) "in.csv")); reflexivity.
  - refine (proj1 (proj1 (proj2 (config_absent_no_connection no_settings_env
                                    (initial_state ∅ two_words 3) _ _)) "out.csv"));
      reflexivity.
Defined.

(** ** Stepping through a script *)

Lemma State_eq st1 st2 :
  stdout st1 = stdout st2 -> files st1 = files st2 ->
  hsk_words st1 = hsk_words st2 -> auto_increment st1 = auto_increment st2 ->
  session st1 = session st2 -> db_log st1 = db_log st2 -> st1 = st2.
Proof. destruct st1, st2; simpl; congruence. Qed.

Ltac state_simpl :=
  cbn [stdout files hsk_words auto_increment session db_log set_stdout
       set_files set_hsk_words set_auto_increment set_session log_event].

Ltac state_eq :=
  apply State_eq; state_simpl; rewrite <- ?app_assoc; reflexivity.

Lemma bind_Return {A B} (m : M A) (k : A -> M B) st a st' :
  m st = (Return a, st') -> bind m k st = k a st'.
Proof. intros H. unfold bind. by rewrite H. Qed.

Lemma bind_Raise {A B} (m : M A) (k : A -> M B) st e st' :
  m st = (Raise e, st') -> bind m k st = (Raise e, st').
Proof. intros H. unfold bind. by rewrite H. Qed.

Lemma try_except_Return {A} (m : M A) h st a st' :
  m st = (Return a, st') -> try_except m h st = (Return a, st').
Proof. intros H. unfold try_except. by rewrite H. Qed.

Lemma try_except_Raise {A} (m : M A) h st e st' :
  m st = (Raise e, st') -> try_except m h st = h e st'.
Proof. intros H. unfold try_except. by rewrite H. Qed.

Lemma try_finally_eq {A} (m : M A) cleanup st r st' st'' :
  m st = (r, st') -> cleanup st' = (Return tt, st'') ->
  try_finally m cleanup st = (r, st'').
Proof. intros H1 H2. unfold try_finally. by rewrite H1, H2. Qed.

Lemma connect_accepted env cfg st :
  server_accepts env cfg = true ->
  connect env cfg st
  = (Return tt, set_session (Some (hsk_words st)) (log_event (EvConnect cfg) st)).
Proof. intros H. unfold connect. by rewrite H. Qed.

Lemma connect_refused env cfg st :
  server_accepts env cfg = false ->
  connect env cfg st
  = (Raise (MySQLError 1045 "Access denied"), log_event (EvConnect cfg) st).
Proof. intros H. unfold connect. by rewrite H. Qed.

Lemma getitem_Some {A} (d : gmap string A) k v st :
  d !! k = Some v -> getitem d k st = (Return v, st).
Proof. intros H. unfold getitem. by rewrite H. Qed.

Lemma close_if_connected_session message st t :
  session st = Some t ->
  close_if_connected message st
  = (Return tt, set_stdout (fun out => out ++ [message])
                  (set_session None (log_event EvClose st))).
Proof.
  intros H. unfold close_if_connected, connection_is_set.
  unfold bind at 1. rewrite H.
  rewrite bool_decide_eq_true_2 by eauto.
  unfold when, bind, close, print. state_simpl. by rewrite H.
Qed.

Arguments select_order_by_id : simpl never.
Arguments level_counts : simpl never.
Arguments dict_reader : simpl never.
Arguments writerow : simpl never.
Arguments writerows : simpl never.
Arguments encode_utf8_sig : simpl never.
Arguments pretty : simpl never.
Arguments String.append : simpl never.

(** ** The exporter once connected *)

Lemma export_connected env output_file st cfg lines d :
  prints (load_db_config env) (Return cfg) lines ->
  cfg !! "database" = Some d ->
  server_accepts env cfg = true ->
  let rows := select_order_by_id (hsk_words st) in
  export_hsk_words_to_csv env output_file st
  = (Return tt,
     {| stdout := stdout st ++ lines ++ [connected_line d]
                  ++ (if is_nil rows then ["No data found."]
                      else ["Exported " +:+ pretty (length rows) +:+ " records to "
                            +:+ output_file])
                  ++ ["Database connection closed."];
        files := if is_nil rows then files st
                 else <[output_file := encode_utf8_sig (csv_text rows)]> (files st);
        hsk_words := hsk_words st;
        auto_increment := auto_increment st;
        session := None;
        db_log := db_log st ++ [EvConnect cfg;
                                EvExecute SELECT_FROM_hsk_words_ORDER_BY_Id;
                                EvClose] |}).
Proof.
  intros Hp Hd Hacc rows.
  unfold export_hsk_words_to_csv.
  destruct (is_nil rows) eqn:Hnil.
  - eapply try_finally_eq.
    + apply try_except_Return.
      erewrite bind_Return by apply Hp.
      erewrite bind_Return by (by apply connect_accepted).
      erewrite bind_Return by (by apply getitem_Some).
      erewrite bind_Return by reflexivity.
      erewrite bind_Return by reflexivity.
      state_simpl. fold rows. rewrite Hnil. reflexivity.
    + erewrite close_if_connected_session by reflexivity.
      f_equal. state_eq.
  - eapply try_finally_eq.
    + apply try_except_Return.
      erewrite bind_Return by apply Hp.
      erewrite bind_Return by (by apply connect_accepted).
      erewrite bind_Return by (by apply getitem_Some).
      erewrite bind_Return by reflexivity.
      erewrite bind_Return by reflexivity.
      state_simpl. fold rows. rewrite Hnil. fold (csv_text rows).
      erewrite bind_Return by reflexivity. reflexivity.
    + erewrite close_if_connected_session by reflexivity.
      f_equal. state_eq.
Qed.

(** ** The rows the exporter fetches *)

Global Instance id_le_trans : Transitive id_le.
Proof. intros x y z. unfold id_le. lia. Qed.

Global Instance id_le_total : Total id_le.
Proof. intros x y. unfold id_le. lia. Qed.

Lemma select_order_by_id_Permutation t :
  select_order_by_id t ≡ₚ map_to_list t.
Proof. apply merge_sort_Permutation. Qed.

Lemma select_order_by_id_empty : select_order_by_id ∅ = [].
Proof.
  apply Permutation_nil_r. rewrite select_order_by_id_Permutation.
  by rewrite map_to_list_empty.
Qed.




(** ** The exporter when the server refuses the connection *)

Lemma export_refused env output_file st cfg lines :
  prints (load_db_config env) (Return cfg) lines ->
  server_accepts env cfg = false ->
  session st = None ->
  export_hsk_words_to_csv env output_file st
  = (Return tt,
     log_event (EvConnect cfg)
       (set_stdout (fun out => out ++ lines
                      ++ [export_error_line (MySQLError 1045 "Access denied")]) st)).
Proof.
  intros Hp Hacc Hs. unfold export_hsk_words_to_csv.
  eapply try_finally_eq.
  - erewrite try_except_Raise.
    2:{ erewrite bind_Return by apply Hp.
        erewrite bind_Raise by (by apply connect_refused). reflexivity. }
    reflexivity.
  - rewrite close_if_connected_no_session by done.
    f_equal. state_eq.
Qed.

(** ** What the exporter writes *)

(** C5: when [hsk_words] has no row, a run of the exporter creates no
    file and changes none; once the loader has returned a configuration
    that the server accepts, the run says "No data found." and ends, the
    connection closed. *)
Theorem export_empty_table env output_file st :
  session st = None ->
  hsk_words st = ∅ ->
  let st' := final (export_hsk_words_to_csv env output_file) st in
  files st' = files st
  /\ outcome (export_hsk_words_to_csv env output_file) st = Return tt
  /\ forall cfg,
       outcome (load_db_config env) st = Return cfg ->
       server_accepts env cfg = true ->
       exists lines,
         stdout st' = stdout st ++ lines
                        ++ ["No data found."; "Database connection closed."]
         /\ session st' = None.
Proof.
  intros Hs Ht st'. subst st'. unfold final, outcome.
  destruct (load_db_config_prints env) as ([cfg|e] & lines & Hp).
  - pose proof (Hp st) as Hst.
    assert (outcome (load_db_config env) st = Return cfg) as Hr
      by (unfold outcome; by rewrite Hst).
    destruct (load_db_config_Return env st cfg Hr)
      as (s & h & d & u & _ & _ & _ & Hd & _ & _).
    destruct (server_accepts env cfg) eqn:Hacc.
    + rewrite (export_connected env output_file st cfg lines d Hp Hd Hacc).
      rewrite Ht, select_order_by_id_empty. simpl.
      split; [done|]. split; [done|].
      intros cfg' Hcfg' _. exists (lines ++ [connected_line d]).
      split; [|done]. by rewrite <- !app_assoc.
    + rewrite (export_refused env output_file st cfg lines Hp Hacc Hs).
      split; [done|]. split; [done|].
      intros cfg' Hcfg' Hacc'. unfold outcome in Hcfg'. rewrite Hst in Hcfg'.
      simpl in Hcfg'. injection Hcfg' as <-. congruence.
  - rewrite (export_loader_raises env output_file st e lines Hp Hs).
    split; [done|]. split; [done|].
    intros cfg' Hcfg'. unfold outcome in Hcfg'. by rewrite (Hp st) in Hcfg'.
Qed.

Lemma export_empty_table_witness :
  let st' := final (export_hsk_words_to_csv (sample_env sample_conn_str) "out.csv")
               (initial_state ∅ ∅ 1) in
  files st' = ∅.
Proof.
  exact (proj1 (export_empty_table (sample_env sample_conn_str) "out.csv"
                  (initial_state ∅ ∅ 1) eq_refl eq_refl)).
Defined.



(** ** Runs of the importer that do not reach [commit] *)

Lemma max_id_empty : max_id ∅ = None.
Proof. unfold max_id. apply map_fold_empty. Qed.

(** A DELETE alone is undone by [rollback]... *)
Lemma delete_rollback_restores st t :
  session st = Some t ->
  let st' := final (execute_delete ;;; rollback) st in
  hsk_words st' = hsk_words st /\ session st' = Some (hsk_words st).
Proof.
  intros Hs. unfold final, bind, execute_delete, rollback. state_simpl.
  rewrite Hs. state_simpl. done.
Qed.

(** ... but not once ALTER TABLE has followed it: the statement has
    committed the DELETE, and [rollback] goes back to an empty table. *)
Lemma delete_alter_rollback_loses st t :
  session st = Some t ->
  let st' := final (execute_delete ;;; execute_alter_auto_increment 1 ;;; rollback) st in
  hsk_words st' = ∅ /\ session st' = Some ∅ /\ auto_increment st' = 1.
Proof.
  intros Hs. unfold final, bind, execute_delete, execute_alter_auto_increment,
    rollback. state_simpl. rewrite Hs. state_simpl. by rewrite max_id_empty.
Qed.

Lemma two_words_not_empty : two_words <> ∅.
Proof. apply insert_non_empty. Qed.

(** C1 on a failing input: the table holds two words; the importer is
    given a CSV file whose second row has [two] for [Id], then one whose
    second row repeats the [Id] of the first. Both runs roll back, and
    both leave the table empty, not as it was: the DELETE had been
    committed by the ALTER TABLE that follows it. *)
Theorem import_failed_row_empties_table :
  let env := sample_env sample_conn_str in
  let run csv := final (import_csv_to_db env "in.csv")
                   (initial_state {[ "in.csv" := csv ]} two_words 3) in
  py_int "two" = None
  /\ hsk_words (run bad_id_csv) = ∅
  /\ existsb is_rollback (db_log (run bad_id_csv)) = true
  /\ hsk_words (run duplicate_id_csv) = ∅
  /\ existsb is_rollback (db_log (run duplicate_id_csv)) = true
  /\ hsk_words (initial_state {[ "in.csv" := bad_id_csv ]} two_words 3) <> ∅.
Proof.
  split_and!; try (vm_compute; reflexivity). apply two_words_not_empty.
Qed.

(** C2 on a failing input: the table holds two words and its counter is
    at 3; the importer is given the name of a file that does not exist.
    The run reports the missing file, after it has deleted the rows and
    reset the counter: it leaves the table empty and the counter at 1. *)
Theorem import_missing_csv_empties_table :
  let env := sample_env sample_conn_str in
  let st := initial_state ∅ two_words 3 in
  let st' := final (import_csv_to_db env "missing.csv") st in
  files st !! "missing.csv" = None
  /\ existsb (string_eqb "Error: CSV file 'missing.csv' not found") (stdout st') = true
  /\ hsk_words st' = ∅ /\ auto_increment st' = 1
  /\ hsk_words st <> ∅ /\ auto_increment st = 3.
Proof.
  split_and!; try (vm_compute; reflexivity). apply two_words_not_empty.
Qed.

(** ** Export followed by import *)

(** C3 on a failing input: a table of one row whose [Chinese] holds a
    carriage return is exported, and the file is imported back. The
    exporter writes the character as it is, inside quotes; the importer
    opens the file without [newline=''], so the character reaches the
    reader as a line feed, and the row comes back changed. *)
Theorem export_import_changes_carriage_return :
  let env := sample_env sample_conn_str in
  let st := initial_state ∅ cr_word 2 in
  let st1 := final (export_hsk_words_to_csv env "out.csv") st in
  let st2 := final (import_csv_to_db env "out.csv") st1 in
  hsk_words st1 = cr_word
  /\ hsk_words st2 = lf_word
  /\ lf_word <> cr_word.
Proof.
  split_and!; try (vm_compute; reflexivity).
  intros H. apply (f_equal (fun m => m !! 1)) in H.
  vm_compute in H. discriminate H.
Qed.

(** ** What a run depends on, and what it leaves behind *)

Lemma db_equiv_refl st : db_equiv st st.
Proof. by repeat split. Qed.

Lemma stable_ret {A} (a : A) : stable (ret a).
Proof. by split. Qed.

Lemma stable_raise {A} (e : exn) : stable (@raise A e).
Proof. by split. Qed.

Lemma stable_print line : stable (print line).
Proof. split; [done|]. by intros st st' (? & ? & ? & ?). Qed.

Lemma stable_bind {A B} (m : M A) (k : A -> M B) :
  stable m -> (forall a, stable (k a)) -> stable (bind m k).
Proof.
  intros [Hm1 Hm2] Hk. split.
  - intros st. unfold bind. specialize (Hm1 st).
    destruct (m st) as [[a|e] st1]; [|done].
    destruct (Hk a) as [Hk1 _]. rewrite Hk1. done.
  - intros st st' Heq. unfold bind. specialize (Hm2 st st' Heq).
    destruct (m st) as [[a|e] st1], (m st') as [[a'|e'] st1'];
      simpl in Hm2; destruct Hm2 as [Hr Hs]; try discriminate Hr;
      injection Hr as <-.
    + destruct (Hk a) as [_ Hk2]. by apply Hk2.
    + by split.
Qed.

Lemma stable_try_except {A} (m : M A) h :
  stable m -> (forall e, stable (h e)) -> stable (try_except m h).
Proof.
  intros [Hm1 Hm2] Hh. split.
  - intros st. unfold try_except. specialize (Hm1 st).
    destruct (m st) as [[a|e] st1]; [done|].
    destruct (Hh e) as [Hh1 _]. rewrite Hh1. done.
  - intros st st' Heq. unfold try_except. specialize (Hm2 st st' Heq).
    destruct (m st) as [[a|e] st1], (m st') as [[a'|e'] st1'];
      simpl in Hm2; destruct Hm2 as [Hr Hs]; try discriminate Hr;
      injection Hr as <-.
    + by split.
    + destruct (Hh e) as [_ Hh2]. by apply Hh2.
Qed.

Lemma stable_try_finally {A} (m : M A) cleanup :
  stable m -> stable cleanup -> stable (try_finally m cleanup).
Proof.
  intros [Hm1 Hm2] [Hc1 Hc2]. split.
  - intros st. unfold try_finally. specialize (Hm1 st).
    destruct (m st) as [r st1]. specialize (Hc1 st1).
    destruct (cleanup st1) as [[[]|e] st2]; simpl in *; congruence.
  - intros st st' Heq. unfold try_finally. specialize (Hm2 st st' Heq).
    destruct (m st) as [r st1], (m st') as [r' st1'].
    simpl in Hm2. destruct Hm2 as [<- Hs]. specialize (Hc2 st1 st1' Hs).
    destruct (cleanup st1) as [[[]|e] st2], (cleanup st1') as [[[]|e'] st2'];
      simpl in Hc2; destruct Hc2 as [Hr Hs2]; try discriminate Hr.
    + by split.
    + injection Hr as <-. by split.
Qed.

Lemma stable_when b m : stable m -> stable (when b m).
Proof. destruct b; [done|]. intros _. apply stable_ret. Qed.

Lemma stable_for_each {A} (l : list A) body :
  (forall x, stable (body x)) -> stable (for_each l body).
Proof.
  intros Hb. induction l as [|x l IH]; simpl; [apply stable_ret|].
  apply stable_bind; [apply Hb|done].
Qed.

Lemma stable_for_fold {A S} (l : list A) (s : S) body :
  (forall s x, stable (body s x)) -> stable (for_fold l s body).
Proof.
  intros Hb. revert s. induction l as [|x l IH]; intros s; simpl; [apply stable_ret|].
  apply stable_bind; [apply Hb|]. intros s'. apply IH.
Qed.

Lemma stable_getitem {A} (d : gmap string A) k : stable (getitem d k).
Proof. unfold getitem. destruct (d !! k); [apply stable_ret|apply stable_raise]. Qed.

Lemma stable_int_of_cell cell : stable (int_of_cell cell).
Proof.
  unfold int_of_cell. destruct cell as [s|]; [|apply stable_raise].
  destruct (py_int s); [apply stable_ret|apply stable_raise].
Qed.

Lemma stable_raise_if_any err : stable (raise_if_any err).
Proof. destruct err; [apply stable_raise|apply stable_ret]. Qed.

(** The calls of the driver. *)
Ltac stable_driver_call :=
  split;
  [ intros st; state_simpl; destruct (session st); reflexivity
  | intros st st' (Hf & Ht & Ha & Hs); unfold db_equiv; state_simpl; rewrite Hs;
    destruct (session st') eqn:Hs'; cbn [fst snd]; state_simpl;
    (split; [reflexivity|]); repeat split; try done; congruence ].

Lemma stable_connection_is_set : stable connection_is_set.
Proof.
  split; [done|]. intros st st' (Hf & Ht & Ha & Hs).
  unfold connection_is_set. cbn [fst snd]. rewrite Hs. by repeat split.
Qed.

Lemma stable_commit : stable commit.
Proof. unfold commit. stable_driver_call. Qed.

Lemma stable_rollback : stable rollback.
Proof. unfold rollback. stable_driver_call. Qed.

Lemma stable_close : stable close.
Proof. unfold close. stable_driver_call. Qed.

Lemma stable_execute_select_count : stable execute_select_count.
Proof. unfold execute_select_count. stable_driver_call. Qed.

Lemma stable_execute_select_level_counts : stable execute_select_level_counts.
Proof. unfold execute_select_level_counts. stable_driver_call. Qed.

Lemma stable_execute_insert env id c : stable (execute_insert env id c).
Proof.
  unfold execute_insert. split.
  - intros st. state_simpl. destruct (session st) as [t|]; [|done].
    destruct (negb _); [done|]. by destruct (bool_decide _).
  - intros st st' (Hf & Ht & Ha & Hs). unfold db_equiv. state_simpl. rewrite Hs.
    destruct (session st') as [t|] eqn:Hs'; cbn [fst snd]; state_simpl;
      [|repeat split; congruence].
    destruct (negb _); cbn [fst snd]; state_simpl; [repeat split; congruence|].
    destruct (bool_decide _); cbn [fst snd]; state_simpl;
      repeat split; congruence.
Qed.

Lemma stable_open_read path : stable (open_read path).
Proof.
  unfold open_read. split.
  - intros st. by destruct (files st !! path).
  - intros st st' (Hf & Ht & Ha & Hs). rewrite Hf.
    destruct (files st' !! path); by repeat split.
Qed.

Create HintDb stable.

#[local] Hint Resolve stable_ret stable_raise stable_print stable_getitem
  stable_int_of_cell stable_raise_if_any stable_connection_is_set
  stable_commit stable_rollback stable_close stable_execute_select_count
  stable_execute_select_level_counts stable_execute_insert stable_open_read
  stable_when stable_for_each stable_for_fold stable_try_except
  stable_try_finally stable_bind : stable.

Ltac stable_steps := auto 60 with stable nocore.

Lemma stable_insert_row env row : stable (insert_row env row).
Proof. unfold insert_row. stable_steps. Qed.

Lemma stable_import_row env n row : stable (import_row env n row).
Proof.
  unfold import_row. apply stable_bind; [apply stable_insert_row|]. stable_steps.
Qed.

Lemma stable_insert_rows env csv_file : stable (insert_rows env csv_file).
Proof.
  unfold insert_rows.
  apply stable_bind; [apply stable_print|]. intros _.
  apply stable_bind; [apply stable_open_read|]. intros lines.
  apply stable_bind.
  { apply stable_for_fold. intros. apply stable_import_row. }
  stable_steps.
Qed.

Lemma stable_insert_and_verify env csv_file : stable (insert_and_verify env csv_file).
Proof.
  unfold insert_and_verify, verify_data.
  apply stable_bind; [apply stable_insert_rows|]. stable_steps.
Qed.

Lemma stable_import_handler csv_file e : stable (import_handler csv_file e).
Proof.
  unfold import_handler.
  destruct (is_FileNotFoundError e); [apply stable_print|].
  destruct (is_pymysql_Error e); stable_steps.
Qed.

Lemma stable_close_if_connected message : stable (close_if_connected message).
Proof. unfold close_if_connected. stable_steps. Qed.

Lemma stable_import_after_reset env csv_file :
  stable (import_after_reset env csv_file).
Proof.
  apply stable_try_finally; [|apply stable_close_if_connected].
  apply stable_try_except; [apply stable_insert_and_verify|].
  intros e. apply stable_import_handler.
Qed.

(** ** The importer once connected *)

Lemma try_finally_try_except_bind {A B} (m : M A) (k : A -> M B) h c st a st' :
  m st = (Return a, st') ->
  try_finally (try_except (bind m k) h) c st
  = try_finally (try_except (k a) h) c st'.
Proof. intros H. unfold try_finally, try_except, bind. by rewrite H. Qed.

Lemma delete_and_reset_session st t :
  session st = Some t ->
  delete_and_reset st
  = (Return tt,
     {| stdout := stdout st
                  ++ [NL +:+ "Step 1: Deleting existing data...";
                      "Deleted " +:+ pretty (size t) +:+ " records";
                      NL +:+ "Step 2: Resetting auto increment..."];
        files := files st;
        hsk_words := ∅;
        auto_increment := 1;
        session := Some ∅;
        db_log := db_log st
                  ++ [EvExecute DELETE_FROM_hsk_words;
                      EvExecute (ALTER_TABLE_hsk_words_AUTO_INCREMENT 1)] |}).
Proof.
  intros Hs. unfold delete_and_reset.
  erewrite bind_Return by reflexivity.
  erewrite bind_Return.
  2:{ unfold execute_delete. state_simpl. rewrite Hs. reflexivity. }
  erewrite bind_Return by reflexivity.
  erewrite bind_Return by reflexivity.
  unfold execute_alter_auto_increment. state_simpl.
  rewrite max_id_empty. f_equal. state_eq.
Qed.

Lemma import_connected env csv_file st cfg lines d :
  prints (load_db_config env) (Return cfg) lines ->
  cfg !! "database" = Some d ->
  server_accepts env cfg = true ->
  import_csv_to_db env csv_file st
  = import_after_reset env csv_file (reset_state st cfg lines d).
Proof.
  intros Hp Hd Hacc. unfold import_csv_to_db, import_after_reset.
  erewrite try_finally_try_except_bind by apply Hp.
  erewrite try_finally_try_except_bind by (by apply connect_accepted).
  erewrite try_finally_try_except_bind by (by apply getitem_Some).
  erewrite try_finally_try_except_bind by reflexivity.
  erewrite try_finally_try_except_bind.
  2:{ apply delete_and_reset_session. reflexivity. }
  f_equal. unfold reset_state. state_eq.
Qed.

Lemma import_refused env csv_file st cfg lines :
  prints (load_db_config env) (Return cfg) lines ->
  server_accepts env cfg = false ->
  session st = None ->
  import_csv_to_db env csv_file st
  = (Return tt,
     log_event (EvConnect cfg)
       (set_stdout (fun out => out ++ lines
                      ++ [import_error_line csv_file (MySQLError 1045 "Access denied")])
          st)).
Proof.
  intros Hp Hacc Hs. unfold import_csv_to_db.
  eapply try_finally_eq.
  - erewrite try_except_Raise.
    2:{ erewrite bind_Return by apply Hp.
        erewrite bind_Raise by (by apply connect_refused). reflexivity. }
    unfold import_handler. cbn [is_FileNotFoundError is_pymysql_Error].
    erewrite bind_Return by reflexivity.
    unfold connection_is_set, bind. state_simpl. rewrite Hs. reflexivity.
  - rewrite close_if_connected_no_session by done.
    f_equal. state_eq.
Qed.

(** ** Two runs of the importer *)

(** C4: a run of the importer that starts without a connection, followed
    by a second run on the same host with the same CSV file name, ends
    with the table, its counter and the files that the first run left. *)
Theorem import_idempotent env csv_file st :
  session st = None ->
  let st1 := final (import_csv_to_db env csv_file) st in
  let st2 := final (import_csv_to_db env csv_file) st1 in
  hsk_words st2 = hsk_words st1
  /\ auto_increment st2 = auto_increment st1
  /\ files st2 = files st1
  /\ session st1 = None /\ session st2 = None.
Proof.
  intros Hs st1 st2. subst st1 st2. unfold final.
  destruct (load_db_config_prints env) as ([cfg|e] & lines & Hp).
  - assert (outcome (load_db_config env) st = Return cfg) as Hr
      by (unfold outcome; by rewrite (Hp st)).
    destruct (load_db_config_Return env st cfg Hr)
      as (s & h & d & u & _ & _ & _ & Hd & _ & _).
    destruct (server_accepts env cfg) eqn:Hacc.
    + rewrite (import_connected env csv_file st cfg lines d Hp Hd Hacc).
      rewrite (import_connected env csv_file _ cfg lines d Hp Hd Hacc).
      destruct (stable_import_after_reset env csv_file) as [Hfiles Hequiv].
      set (r := reset_state st cfg lines d).
      set (st1 := (import_after_reset env csv_file r).2).
      assert (db_equiv r (reset_state st1 cfg lines d)) as Heq.
      { unfold db_equiv, reset_state, st1, r. state_simpl.
        rewrite Hfiles. by repeat split. }
      destruct (Hequiv _ _ Heq) as [_ (Hf & Ht & Ha & Hses)].
      fold st1 in Hf, Ht, Ha, Hses.
      assert (session st1 = None) as Hnone.
      { unfold st1, import_after_reset, try_finally.
        destruct (try_except _ _ r) as [res s1].
        unfold close_if_connected, connection_is_set, bind.
        destruct (session s1) as [t|] eqn:Hs1.
        - rewrite bool_decide_eq_true_2 by eauto.
          unfold when, bind, close, print. state_simpl. by rewrite Hs1.
        - rewrite bool_decide_eq_false_2 by (by intros [? ?]).
          by unfold when, ret. }
      split_and!; try done; congruence.
    + rewrite (import_refused env csv_file st cfg lines Hp Hacc Hs).
      cbn [snd]. rewrite (import_refused env csv_file _ cfg lines Hp Hacc); done.
  - rewrite (import_loader_raises env csv_file st e lines Hp Hs).
    cbn [snd]. rewrite (import_loader_raises env csv_file _ e lines Hp); done.
Qed.

Lemma import_idempotent_witness :
  let env := sample_env sample_conn_str in
  let st := initial_state {[ "in.csv" := two_words_csv ]} ∅ 1 in
  let st1 := final (import_csv_to_db env "in.csv") st in
  let st2 := final (import_csv_to_db env "in.csv") st1 in
  hsk_words st2 = hsk_words st1.
Proof.
  exact (proj1 (import_idempotent (sample_env sample_conn_str) "in.csv"
                  (initial_state {[ "in.csv" := two_words_csv ]} ∅ 1) eq_refl)).
Defined.

(** ** Runs of the importer that connect and fail *)

Lemma keeps_table_ret {A} (a : A) : keeps_table (ret a).
Proof. done. Qed.

Lemma keeps_table_raise {A} (e : exn) : keeps_table (@raise A e).
Proof. done. Qed.

Lemma keeps_table_print line : keeps_table (print line).
Proof. done. Qed.

Lemma keeps_table_bind {A B} (m : M A) (k : A -> M B) :
  keeps_table m -> (forall a, keeps_table (k a)) -> keeps_table (bind m k).
Proof.
  intros Hm Hk st. unfold bind. specialize (Hm st).
  destruct (m st) as [[a|e] st1]; [|done]. by rewrite Hk.
Qed.

Lemma keeps_table_when b m : keeps_table m -> keeps_table (when b m).
Proof. by destruct b. Qed.

Lemma keeps_table_for_fold {A S} (l : list A) (s : S) body :
  (forall s x, keeps_table (body s x)) -> keeps_table (for_fold l s body).
Proof.
  intros Hb. revert s. induction l as [|x l IH]; intros s; simpl; [done|].
  apply keeps_table_bind; [apply Hb|]. intros s'. apply IH.
Qed.

Lemma keeps_table_getitem {A} (d : gmap string A) k : keeps_table (getitem d k).
Proof. unfold getitem. by destruct (d !! k). Qed.

Lemma keeps_table_int_of_cell cell : keeps_table (int_of_cell cell).
Proof. unfold int_of_cell. destruct cell as [s|]; [|done]. by destruct (py_int s). Qed.

Lemma keeps_table_raise_if_any err : keeps_table (raise_if_any err).
Proof. by destruct err. Qed.

Lemma keeps_table_open_read path : keeps_table (open_read path).
Proof. intros st. unfold open_read. by destruct (files st !! path). Qed.

Lemma keeps_table_connection_is_set : keeps_table connection_is_set.
Proof. done. Qed.

Lemma keeps_table_rollback : keeps_table rollback.
Proof. intros st. unfold rollback. state_simpl. by destruct (session st). Qed.

Lemma keeps_table_close : keeps_table close.
Proof. intros st. unfold close. state_simpl. by destruct (session st). Qed.

Lemma keeps_table_execute_insert env id c : keeps_table (execute_insert env id c).
Proof.
  intros st. unfold execute_insert. state_simpl.
  destruct (session st) as [t|]; [|done].
  destruct (negb _); [done|]. by destruct (bool_decide _).
Qed.

Create HintDb keeps_table.

#[local] Hint Resolve keeps_table_ret keeps_table_raise keeps_table_print
  keeps_table_getitem keeps_table_int_of_cell keeps_table_raise_if_any
  keeps_table_open_read keeps_table_connection_is_set keeps_table_rollback
  keeps_table_close keeps_table_execute_insert keeps_table_when
  keeps_table_for_fold keeps_table_bind : keeps_table.

Ltac keeps_table_steps := auto 60 with keeps_table nocore.

Lemma keeps_table_insert_rows env csv_file : keeps_table (insert_rows env csv_file).
Proof.
  unfold insert_rows.
  apply keeps_table_bind; [apply keeps_table_print|]. intros _.
  apply keeps_table_bind; [apply keeps_table_open_read|]. intros lines.
  apply keeps_table_bind.
  { apply keeps_table_for_fold. intros n row. unfold import_row, insert_row.
    keeps_table_steps. }
  keeps_table_steps.
Qed.

Lemma keeps_table_import_handler csv_file e : keeps_table (import_handler csv_file e).
Proof.
  unfold import_handler.
  destruct (is_FileNotFoundError e); [apply keeps_table_print|].
  destruct (is_pymysql_Error e); keeps_table_steps.
Qed.

Lemma keeps_table_close_if_connected message :
  keeps_table (close_if_connected message).
Proof. unfold close_if_connected. keeps_table_steps. Qed.

(** Whenever the importer gets its connection and step 3 raises, be it on
    a missing file, on a cell that [int] refuses or on a row that the
    server refuses, the run ends with the table empty, whatever the table
    held before: the rows were deleted for good in steps 1 and 2. *)
Theorem import_uncommitted_leaves_table_empty env csv_file st cfg e :
  outcome (load_db_config env) st = Return cfg ->
  server_accepts env cfg = true ->
  outcome (insert_rows env csv_file) (emptied st) = Raise e ->
  hsk_words (final (import_csv_to_db env csv_file) st) = ∅.
Proof.
  intros Hr Hacc Hraise.
  destruct (load_db_config_Return env st cfg Hr)
    as (s & h & d & u & _ & _ & _ & Hd & _ & Hp).
  unfold final. rewrite (import_connected env csv_file st cfg _ d Hp Hd Hacc).
  set (r := reset_state st cfg _ d).
  assert (db_equiv (emptied st) r) as Heq by (by repeat split).
  destruct (stable_insert_rows env csv_file) as [_ Hst].
  destruct (Hst _ _ Heq) as [Hout _].
  unfold outcome in Hraise. rewrite Hraise in Hout.
  pose proof (keeps_table_insert_rows env csv_file r) as Hkeep.
  unfold import_after_reset, try_finally, try_except, insert_and_verify.
  unfold bind at 1.
  destruct (insert_rows env csv_file r) as [[n|e'] s1]; [done|].
  cbn [snd] in Hkeep.
  pose proof (keeps_table_import_handler csv_file e' s1) as Hh.
  destruct (import_handler csv_file e' s1) as [res s2]. cbn [snd] in Hh.
  pose proof (keeps_table_close_if_connected
                (NL +:+ "Database connection closed.") s2) as Hc.
  destruct (close_if_connected _ s2) as [[[]|e''] s3]; cbn [snd] in Hc |- *;
    by rewrite Hc, Hh, Hkeep.
Qed.

Lemma import_uncommitted_leaves_table_empty_example :
  hsk_words (final (import_csv_to_db (sample_env sample_conn_str) "in.csv")
               (initial_state {[ "in.csv" := bad_id_csv ]} two_words 3)) = ∅.
Proof.
  apply (import_uncommitted_leaves_table_empty _ _ _
           {[ "host" := "localhost"; "database" := "hsk"; "user" := "app";
              "password" := "secret"; "charset" := "utf8mb4" ]}
           (ValueError "invalid literal for int() with base 10: 'two'")).
  - vm_compute. reflexivity.
  - reflexivity.
  - vm_compute. reflexivity.
Defined.

(** * Further properties of the two scripts *)

(** ** The handlers and the [finally] clauses *)

Lemma import_handler_returns csv_file e st :
  exists st', import_handler csv_file e st = (Return tt, st')
    /\ files st' = files st.
Proof.
  unfold import_handler.
  destruct (is_FileNotFoundError e); [by eexists|].
  destruct (is_pymysql_Error e).
  - unfold bind at 1. unfold print at 1. unfold bind at 1.
    unfold connection_is_set. state_simpl.
    destruct (session st) as [t|] eqn:Hs.
    + rewrite bool_decide_eq_true_2 by eauto.
      unfold when, bind, rollback, print. state_simpl. rewrite Hs.
      by eexists.
    + rewrite bool_decide_eq_false_2 by (by intros [? ?]).
      by eexists.
  - unfold bind at 1. unfold print at 1. unfold bind at 1.
    unfold connection_is_set. state_simpl.
    destruct (session st) as [t|] eqn:Hs.
    + rewrite bool_decide_eq_true_2 by eauto.
      unfold when, rollback. state_simpl. rewrite Hs.
      by eexists.
    + rewrite bool_decide_eq_false_2 by (by intros [? ?]).
      by eexists.
Qed.

Lemma close_if_connected_returns message st :
  exists st', close_if_connected message st = (Return tt, st')
    /\ session st' = None /\ files st' = files st
    /\ hsk_words st' = hsk_words st /\ auto_increment st' = auto_increment st.
Proof.
  destruct (session st) as [t|] eqn:Hs.
  - rewrite (close_if_connected_session _ _ t Hs). by eexists.
  - rewrite close_if_connected_no_session by done. by eexists.
Qed.

Lemma import_after_reset_returns env csv_file st :
  exists st', import_after_reset env csv_file st = (Return tt, st')
    /\ session st' = None /\ files st' = files st.
Proof.
  unfold import_after_reset, try_finally, try_except.
  destruct (stable_insert_and_verify env csv_file) as [Hfiles _].
  specialize (Hfiles st).
  destruct (insert_and_verify env csv_file st) as [[[]|e] s1]; cbn [snd] in Hfiles.
  - destruct (close_if_connected_returns (NL +:+ "Database connection closed.") s1)
      as (s2 & -> & Hs2 & Hf2 & _).
    exists s2. by rewrite Hf2.
  - destruct (import_handler_returns csv_file e s1) as (s2 & -> & Hf2).
    destruct (close_if_connected_returns (NL +:+ "Database connection closed.") s2)
      as (s3 & -> & Hs3 & Hf3 & _).
    exists s3. by rewrite Hf3, Hf2.
Qed.

(** The exporter and the files it was not asked to write. *)
Lemma export_other_files env output_file st path :
  session st = None -> path <> output_file ->
  files (final (export_hsk_words_to_csv env output_file) st) !! path
  = files st !! path.
Proof.
  intros Hs Hne. unfold final.
  destruct (load_db_config_prints env) as ([cfg|e] & lines & Hp).
  - assert (outcome (load_db_config env) st = Return cfg) as Hr
      by (unfold outcome; by rewrite (Hp st)).
    destruct (load_db_config_Return env st cfg Hr)
      as (s & h & d & u & _ & _ & _ & Hd & _ & _).
    destruct (server_accepts env cfg) eqn:Hacc.
    + rewrite (export_connected env output_file st cfg lines d Hp Hd Hacc).
      cbn [snd files]. destruct (is_nil _); [done|].
      by rewrite lookup_insert_ne.
    + by rewrite (export_refused env output_file st cfg lines Hp Hacc Hs).
  - by rewrite (export_loader_raises env output_file st e lines Hp Hs).
Qed.

(** ** What the scripts never do *)

(** X1: a run of the exporter that starts without a connection returns
    to its caller whatever happens, leaves the table and its counter as
    they were, sends the server nothing but a connection request, its one
    SELECT and the closing, ends with the connection closed, and changes
    no file other than the one it was asked to write. *)
Theorem export_read_only env output_file st :
  session st = None ->
  let st' := final (export_hsk_words_to_csv env output_file) st in
  outcome (export_hsk_words_to_csv env output_file) st = Return tt
  /\ hsk_words st' = hsk_words st
  /\ auto_increment st' = auto_increment st
  /\ session st' = None
  /\ (forall path, path <> output_file -> files st' !! path = files st !! path)
  /\ exists events,
       db_log st' = db_log st ++ events /\ forallb is_read_only events = true.
Proof.
  intros Hs st'. subst st'. unfold final, outcome.
  destruct (load_db_config_prints env) as ([cfg|e] & lines & Hp).
  - assert (outcome (load_db_config env) st = Return cfg) as Hr
      by (unfold outcome; by rewrite (Hp st)).
    destruct (load_db_config_Return env st cfg Hr)
      as (s & h & d & u & _ & _ & _ & Hd & _ & _).
    destruct (server_accepts env cfg) eqn:Hacc.
    + rewrite (export_connected env output_file st cfg lines d Hp Hd Hacc).
      cbn [fst snd]. state_simpl. split_and!; try done.
      * intros path Hne. destruct (is_nil _); [done|].
        by rewrite lookup_insert_ne.
      * by eexists.
    + rewrite (export_refused env output_file st cfg lines Hp Hacc Hs).
      cbn [fst snd]. state_simpl. split_and!; try done. by eexists.
  - rewrite (export_loader_raises env output_file st e lines Hp Hs).
    cbn [fst snd]. state_simpl. split_and!; try done.
    exists []. by rewrite app_nil_r.
Qed.

Lemma export_read_only_witness :
  hsk_words (final (export_hsk_words_to_csv (sample_env sample_conn_str) "out.csv")
               (initial_state ∅ two_words 3)) = two_words.
Proof.
  exact (proj1 (proj2 (export_read_only (sample_env sample_conn_str) "out.csv"
                         (initial_state ∅ two_words 3) eq_refl))).
Defined.

(** X2: a run of the importer that starts without a connection returns
    to its caller whatever happens: no exception leaves
    [import_csv_to_db]. It ends with the connection closed, and it
    writes no file. *)
Theorem import_always_returns env csv_file st :
  session st = None ->
  let st' := final (import_csv_to_db env csv_file) st in
  outcome (import_csv_to_db env csv_file) st = Return tt
  /\ session st' = None
  /\ files st' = files st.
Proof.
  intros Hs st'. subst st'. unfold final, outcome.
  destruct (load_db_config_prints env) as ([cfg|e] & lines & Hp).
  - assert (outcome (load_db_config env) st = Return cfg) as Hr
      by (unfold outcome; by rewrite (Hp st)).
    destruct (load_db_config_Return env st cfg Hr)
      as (s & h & d & u & _ & _ & _ & Hd & _ & _).
    destruct (server_accepts env cfg) eqn:Hacc.
    + rewrite (import_connected env csv_file st cfg lines d Hp Hd Hacc).
      destruct (import_after_reset_returns env csv_file (reset_state st cfg lines d))
        as (s' & -> & Hs' & Hf'). done.
    + by rewrite (import_refused env csv_file st cfg lines Hp Hacc Hs).
  - by rewrite (import_loader_raises env csv_file st e lines Hp Hs).
Qed.

Lemma import_always_returns_witness :
  outcome (import_csv_to_db (sample_env sample_conn_str) "in.csv")
    (initial_state {[ "in.csv" := bad_id_csv ]} two_words 3) = Return tt.
Proof.
  exact (proj1 (import_always_returns (sample_env sample_conn_str) "in.csv"
                  (initial_state {[ "in.csv" := bad_id_csv ]} two_words 3) eq_refl)).
Defined.

(** X3: whenever the loader raises, be it for a settings file that is
    absent, unreadable or not JSON, for a document without a string at
    [ConnectionStrings.DefaultConnection], or for a connection string
    without server, database or user, a run of either script ends without
    any call to the database driver, and with the table, its counter and
    the files as they were. *)
Theorem loader_failure_no_driver_call env st e :
  session st = None ->
  outcome (load_db_config env) st = Raise e ->
  (forall output_file,
     let st' := final (export_hsk_words_to_csv env output_file) st in
     db_log st' = db_log st /\ hsk_words st' = hsk_words st
     /\ auto_increment st' = auto_increment st /\ files st' = files st)
  /\ (forall csv_file,
        let st' := final (import_csv_to_db env csv_file) st in
        db_log st' = db_log st /\ hsk_words st' = hsk_words st
        /\ auto_increment st' = auto_increment st /\ files st' = files st).
Proof.
  intros Hs Hr.
  destruct (load_db_config_prints env) as (r & lines & Hp).
  unfold outcome in Hr. rewrite (Hp st) in Hr. cbn [fst] in Hr. subst r.
  split.
  - intros output_file. unfold final.
    by rewrite (export_loader_raises env output_file st e lines Hp Hs).
  - intros csv_file. unfold final.
    by rewrite (import_loader_raises env csv_file st e lines Hp Hs).
Qed.

Lemma loader_failure_no_driver_call_witness :
  db_log (final (import_csv_to_db (sample_env "Database=hsk;User=app") "in.csv")
            (initial_state {[ "in.csv" := two_words_csv ]} two_words 3)) = [].
Proof.
  refine (proj1 (proj2 (loader_failure_no_driver_call
                          (sample_env "Database=hsk;User=app")
                          (initial_state {[ "in.csv" := two_words_csv ]} two_words 3)
                          (KeyError "host") eq_refl _) "in.csv")).
  vm_compute. reflexivity.
Defined.

(** X4: when the server refuses the connection, a run of either script
    makes that one attempt and no other call to the driver: nothing is
    retried, and the table, its counter and the files stay as they
    were. *)
Theorem connection_refused_single_attempt env st cfg :
  session st = None ->
  outcome (load_db_config env) st = Return cfg ->
  server_accepts env cfg = false ->
  (forall output_file,
     let st' := final (export_hsk_words_to_csv env output_file) st in
     db_log st' = db_log st ++ [EvConnect cfg] /\ session st' = None
     /\ hsk_words st' = hsk_words st
     /\ auto_increment st' = auto_increment st /\ files st' = files st)
  /\ (forall csv_file,
        let st' := final (import_csv_to_db env csv_file) st in
        db_log st' = db_log st ++ [EvConnect cfg] /\ session st' = None
        /\ hsk_words st' = hsk_words st
        /\ auto_increment st' = auto_increment st /\ files st' = files st).
Proof.
  intros Hs Hr Hacc.
  destruct (load_db_config_Return env st cfg Hr)
    as (s & h & d & u & _ & _ & _ & _ & _ & Hp).
  split.
  - intros output_file. unfold final.
    by rewrite (export_refused env output_file st cfg _ Hp Hacc Hs).
  - intros csv_file. unfold final.
    by rewrite (import_refused env csv_file st cfg _ Hp Hacc Hs).
Qed.

Lemma connection_refused_single_attempt_witness :
  db_log (final (import_csv_to_db refusing_env "in.csv")
            (initial_state {[ "in.csv" := two_words_csv ]} two_words 3))
  = [EvConnect (loaded_config sample_conn_str)].
Proof.
  refine (proj1 (proj2 (connection_refused_single_attempt refusing_env
                          (initial_state {[ "in.csv" := two_words_csv ]} two_words 3)
                          (loaded_config sample_conn_str) eq_refl _ eq_refl)
                   "in.csv")).
  vm_compute. reflexivity.
Defined.

(** ** Returning computations *)





(** ** The rows that the importer inserts *)
















(** ** A run of the importer that succeeds *)





(** ** A run of the importer with a record that does not read as a row *)











(** ** [int] of [str] of a number *)

Lemma pretty_N_char_digit (d : N) :
  (d < 10)%N ->
  is_digit (pretty_N_char d) = true /\ digit_value (pretty_N_char d) = Z.of_N d.
Proof.
  intros H.
  assert (d = 0 \/ d = 1 \/ d = 2 \/ d = 3 \/ d = 4 \/ d = 5 \/ d = 6 \/ d = 7
          \/ d = 8 \/ d = 9)%N as Hd by lia.
  repeat (destruct Hd as [->|Hd]); try subst d; by vm_compute.
Qed.

Lemma int_digits_pretty_N_go (x : N) :
  forall s b, (0 < x)%N ->
    int_digits 0 b (pretty_N_go x s) = int_digits (Z.of_N x) true s.
Proof.
  induction (N.lt_wf_0 x) as [x _ IH]. intros s b Hx.
  rewrite pretty_N_go_step by done.
  destruct (pretty_N_char_digit (x `mod` 10)%N) as [Hdig Hval];
    [by apply N.mod_lt|].
  destruct (decide (x `div` 10 = 0)%N) as [Hz|Hnz].
  - rewrite Hz, pretty_N_go_0. cbn [int_digits]. rewrite Hdig, Hval.
    f_equal. pose proof (N.div_mod x 10 ltac:(done)). lia.
  - rewrite IH; [|apply N.div_lt; lia|by apply N.neq_0_lt_0].
    cbn [int_digits]. rewrite Hdig, Hval. f_equal.
    pose proof (N.div_mod x 10 ltac:(done)). lia.
Qed.


Lemma length_pretty_N_go (k : nat) :
  forall x s, (x < 10 ^ N.of_nat k)%N ->
    (String.length (pretty_N_go x s) <= String.length s + k)%nat.
Proof.
  induction k as [|k IH]; intros x s Hx.
  - assert (x = 0%N) as -> by (change (10 ^ N.of_nat 0)%N with 1%N in Hx; lia).
    rewrite pretty_N_go_0. lia.
  - destruct (decide (0 < x)%N) as [Hpos|Hpos].
    + rewrite pretty_N_go_step by done.
      etrans; [apply IH|cbn [String.length]; lia].
      apply N.Div0.div_lt_upper_bound.
      rewrite Nat2N.inj_succ, N.pow_succ_r' in Hx. lia.
    + assert (x = 0%N) as -> by lia. rewrite pretty_N_go_0. lia.
Qed.




(** ** Strings *)

Lemma append_cons c s t : String c s +:+ t = String c (s +:+ t).
Proof. reflexivity. Qed.

Lemma append_nil_l s : "" +:+ s = s.
Proof. reflexivity. Qed.




Lemma length_append s t :
  String.length (s +:+ t) = (String.length s + String.length t)%nat.
Proof.
  induction s as [|c s IH]; [done|]. rewrite append_cons. cbn [String.length].
  by rewrite IH.
Qed.



(** ** The reader, character by character *)

















(** ** What the exporter writes, read by the importer *)











(** ** The numbers of a row *)



(** ** The records of the file as rows *)







(** ** Export, then import *)








(** ** The confirmation of the importer *)

Lemma lower_y (a : string) : lower a = "y" -> a = "y" \/ a = "Y".
Proof.
  destruct a as [|c [|c' a]]; [done| |done]. cbn [lower]. intros H.
  injection H as H.
  destruct c as [[] [] [] [] [] [] [] []]; vm_compute in H; try discriminate H;
    auto.
Qed.

(** X9: [main] of the importer starts the import for the answers [y] and
    [Y] only. For any other answer, be it [yes], or [y] with a blank, and
    at the end of the input, it makes no call to the driver and leaves the
    table, its counter, the files and the connection as they were; it says
    "Cancelled." and returns if there was an answer, and raises if there
    was none. *)
Theorem import_main_declined env answer st :
  answer <> Some "y" -> answer <> Some "Y" ->
  let st' := final (import_csv.main env answer) st in
  db_log st' = db_log st /\ hsk_words st' = hsk_words st
  /\ auto_increment st' = auto_increment st /\ files st' = files st
  /\ session st' = session st
  /\ match answer with
     | Some _ =>
         outcome (import_csv.main env answer) st = Return tt
         /\ list.last (stdout st') = Some "Cancelled."
     | None =>
         outcome (import_csv.main env answer) st
         = Raise (OtherError "EOF when reading a line")
     end.
Proof.
  intros Hy HY st'. subst st'. unfold final, outcome, import_csv.main.
  do 6 (erewrite bind_Return by reflexivity).
  unfold input. destruct answer as [a|].
  - erewrite bind_Return by reflexivity.
    unfold string_eqb. rewrite bool_decide_eq_false_2.
    + cbn [fst snd print]. state_simpl. split_and!; try done.
      by rewrite last_snoc.
    + intros Hl. apply lower_y in Hl as [-> | ->]; done.
  - erewrite bind_Raise; [|erewrite bind_Return by reflexivity; reflexivity].
    cbn [fst snd]. by state_simpl.
Qed.

Lemma import_main_declined_witness :
  let st := initial_state {[ import_csv.csv_file := two_words_csv ]} two_words 3 in
  hsk_words (final (import_csv.main (sample_env sample_conn_str) (Some "yes")) st)
  = two_words.
Proof.
  refine (proj1 (proj2 (import_main_declined (sample_env sample_conn_str)
                          (Some "yes")
                          (initial_state {[ import_csv.csv_file := two_words_csv ]}
                             two_words 3) _ _))); discriminate.
Defined.

(** ** The name of the file that the exporter writes *)

Lemma int_digits_pretty_N (n : N) b :
  int_digits 0 b (pretty n) = Some (Z.of_N n).
Proof.
  unfold pretty, pretty_N. destruct (decide (n = 0%N)) as [->|Hn].
  - reflexivity.
  - rewrite int_digits_pretty_N_go by lia. reflexivity.
Qed.

Lemma int_digits_zeros k s b :
  exists b', int_digits 0 b (str_repeat "0" k +:+ s) = int_digits 0 b' s.
Proof.
  revert b. induction k as [|k IH]; intros b; [by exists b|].
  cbn [str_repeat]. change ("0" +:+ str_repeat "0" k) with (String "0" (str_repeat "0" k)).
  rewrite append_cons. cbn [int_digits].
  change (is_digit "0") with true. cbn match.
  change (10 * 0 + digit_value "0") with 0. apply IH.
Qed.

Lemma int_digits_zero_pad w n :
  int_digits 0 false (zero_pad w n) = Some (Z.of_N n).
Proof.
  unfold zero_pad. cbv zeta.
  destruct (int_digits_zeros (w - String.length (pretty n)) (pretty n) false)
    as (b' & ->).
  apply int_digits_pretty_N.
Qed.

Lemma zero_pad_inj w n m : zero_pad w n = zero_pad w m -> n = m.
Proof.
  intros H. pose proof (int_digits_zero_pad w n) as Hn.
  rewrite H, int_digits_zero_pad in Hn. injection Hn as Hn. lia.
Qed.

Lemma length_str_repeat c k : String.length (str_repeat (String c "") k) = k.
Proof.
  induction k as [|k IH]; [done|]. cbn [str_repeat].
  rewrite append_cons, append_nil_l. cbn [String.length]. by rewrite IH.
Qed.

Lemma length_zero_pad w n :
  (0 < w)%nat -> (n < 10 ^ N.of_nat w)%N -> String.length (zero_pad w n) = w.
Proof.
  intros Hw Hn. unfold zero_pad. cbv zeta.
  rewrite length_append, length_str_repeat.
  assert (String.length (pretty n) <= w)%nat; [|lia].
  unfold pretty, pretty_N. destruct (decide (n = 0%N)) as [->|Hn0].
  - cbn. lia.
  - apply (length_pretty_N_go w n ""). done.
Qed.

Lemma append_inj_length s1 : forall s2 t1 t2,
  String.length s1 = String.length s2 ->
  s1 +:+ t1 = s2 +:+ t2 -> s1 = s2 /\ t1 = t2.
Proof.
  induction s1 as [|c s1 IH]; intros [|c' s2] t1 t2 Hlen H; try done.
  rewrite !append_cons in H. injection H as -> H.
  cbn [String.length] in Hlen.
  destruct (IH s2 t1 t2) as [-> ->]; [lia|done|done].
Qed.

Lemma valid_datetime_ranges t :
  valid_datetime t = true ->
  (year t < 10 ^ N.of_nat 4 /\ month t < 10 ^ N.of_nat 2 /\ day t < 10 ^ N.of_nat 2
   /\ hour t < 10 ^ N.of_nat 2 /\ minute t < 10 ^ N.of_nat 2
   /\ second t < 10 ^ N.of_nat 2)%N.
Proof.
  unfold valid_datetime. intros H.
  repeat (apply andb_true_iff in H as [H ?]).
  change (10 ^ N.of_nat 4)%N with 10000%N.
  change (10 ^ N.of_nat 2)%N with 100%N.
  repeat match goal with
         | H : (_ <=? _)%N = true |- _ => apply N.leb_le in H
         | H : (_ <? _)%N = true |- _ => apply N.ltb_lt in H
         end.
  lia.
Qed.

Lemma strftime_Ymd_HMS_inj t1 t2 :
  valid_datetime t1 = true -> valid_datetime t2 = true ->
  strftime_Ymd_HMS t1 = strftime_Ymd_HMS t2 -> t1 = t2.
Proof.
  intros H1 H2 H.
  destruct (valid_datetime_ranges t1 H1) as (Hy1 & Hm1 & Hd1 & Hh1 & Hmi1 & Hs1).
  destruct (valid_datetime_ranges t2 H2) as (Hy2 & Hm2 & Hd2 & Hh2 & Hmi2 & Hs2).
  unfold strftime_Ymd_HMS in H.
  apply append_inj_length in H as [Hy H];
    [|by rewrite !length_zero_pad by (done || lia)].
  apply append_inj_length in H as [Hm H];
    [|by rewrite !length_zero_pad by (done || lia)].
  apply append_inj_length in H as [Hd H];
    [|by rewrite !length_zero_pad by (done || lia)].
  apply append_inj_length in H as [_ H]; [|done].
  apply append_inj_length in H as [Hh H];
    [|by rewrite !length_zero_pad by (done || lia)].
  apply append_inj_length in H as [Hmi Hs];
    [|by rewrite !length_zero_pad by (done || lia)].
  apply zero_pad_inj in Hy, Hm, Hd, Hh, Hmi, Hs.
  destruct t1, t2. cbn in *. by subst.
Qed.

Lemma output_file_inj t1 t2 :
  valid_datetime t1 = true -> valid_datetime t2 = true ->
  createcsv.output_file t1 = createcsv.output_file t2 -> t1 = t2.
Proof.
  intros H1 H2 Heq. unfold createcsv.output_file in Heq.
  apply (inj (String.app "hsk_words_")) in Heq.
  apply append_inj_length in Heq as [Heq _].
  - by apply strftime_Ymd_HMS_inj.
  - destruct (valid_datetime_ranges t1 H1) as (? & ? & ? & ? & ? & ?).
    destruct (valid_datetime_ranges t2 H2) as (? & ? & ? & ? & ? & ?).
    unfold strftime_Ymd_HMS.
    rewrite !length_append, !length_zero_pad by (done || lia). done.
Qed.

(** X10: at two valid times of the clock that differ, be it by one
    second, [main] of the exporter chooses two file names that differ, and
    a run at one of them leaves the file named for the other as it was: a
    run writes over the file of an earlier run only within the same
    second. *)
Theorem export_main_keeps_earlier_files env t1 t2 st :
  valid_datetime t1 = true -> valid_datetime t2 = true ->
  t1 <> t2 ->
  session st = None ->
  createcsv.output_file t1 <> createcsv.output_file t2
  /\ files (final (createcsv.main env t2) st) !! createcsv.output_file t1
     = files st !! createcsv.output_file t1.
Proof.
  intros H1 H2 Hne Hs.
  assert (createcsv.output_file t1 <> createcsv.output_file t2) as Hnames.
  { intros Heq. by apply Hne, output_file_inj. }
  split; [done|]. unfold createcsv.main. by apply export_other_files.
Qed.

Lemma export_main_keeps_earlier_files_witness :
  let t1 := {| year := 2026; month := 2; day := 1;
               hour := 12; minute := 59; second := 27 |} in
  let t2 := {| year := 2026; month := 2; day := 1;
               hour := 12; minute := 59; second := 28 |} in
  let st := initial_state {[ createcsv.output_file t1 := two_words_csv ]}
              two_words 3 in
  createcsv.output_file t1 <> createcsv.output_file t2
  /\ files (final (createcsv.main (sample_env sample_conn_str) t2) st)
       !! createcsv.output_file t1
     = files st !! createcsv.output_file t1.
Proof.
  apply export_main_keeps_earlier_files;
    [reflexivity|reflexivity|discriminate|reflexivity].
Defined.

(** X11: the file that [main] of the importer reads has the name that
    [main] of the exporter chooses at one time only, 12:59:27 on the
    first of February 2026: an export made by [main] at any other valid
    time writes another file, and leaves the one that [main] of the
    importer reads as it was. *)
Theorem import_main_reads_one_export env now st :
  valid_datetime now = true ->
  session st = None ->
  (createcsv.output_file now = import_csv.csv_file
   <-> now = {| year := 2026; month := 2; day := 1;
                hour := 12; minute := 59; second := 27 |})
  /\ (createcsv.output_file now <> import_csv.csv_file ->
      files (final (createcsv.main env now) st) !! import_csv.csv_file
      = files st !! import_csv.csv_file).
Proof.
  intros Hv Hs. split; [split|].
  - intros H.
    change import_csv.csv_file
      with (createcsv.output_file
              {| year := 2026; month := 2; day := 1;
                 hour := 12; minute := 59; second := 27 |}) in H.
    by apply output_file_inj in H.
  - intros ->. reflexivity.
  - intros Hne. unfold createcsv.main. by apply export_other_files.
Qed.

Lemma import_main_reads_one_export_witness :
  let now := {| year := 2026; month := 11; day := 4;
                hour := 9; minute := 30; second := 0 |} in
  let st := initial_state ∅ two_words 3 in
  files (final (createcsv.main (sample_env sample_conn_str) now) st)
    !! import_csv.csv_file
  = files st !! import_csv.csv_file.
Proof.
  refine (proj2 (import_main_reads_one_export (sample_env sample_conn_str)
                   {| year := 2026; month := 11; day := 4;
                      hour := 9; minute := 30; second := 0 |}
                   (initial_state ∅ two_words 3) eq_refl eq_refl) _).
  vm_compute. discriminate.
Defined.

(** ** The loader and the console *)

(** X13: in every environment the loader only prints: what it returns or
    raises and the lines it prints do not depend on the state, and the
    files, the table, its counter, the connection and the log of driver
    calls are left as they were. The first line it prints names the
    operating system and the environment chosen for it; when it raises,
    the last line it printed is the error line for the exception that it
    raises again: the missing settings file by its path, any other
    exception by its text. *)
Theorem loader_only_prints env :
  exists r lines,
    (forall st,
       outcome (load_db_config env) st = r
       /\ let st' := final (load_db_config env) st in
          stdout st' = stdout st ++ detected_line env :: lines
          /\ files st' = files st /\ hsk_words st' = hsk_words st
          /\ auto_increment st' = auto_increment st
          /\ session st' = session st /\ db_log st' = db_log st)
    /\ match r with
       | Raise e => list.last (detected_line env :: lines)
                    = Some (load_error_line env e)
       | Return _ => True
       end.
Proof.
  assert (forall r lines,
            prints (load_db_config env) r (detected_line env :: lines) ->
            forall st,
              outcome (load_db_config env) st = r
              /\ let st' := final (load_db_config env) st in
                 stdout st' = stdout st ++ detected_line env :: lines
                 /\ files st' = files st /\ hsk_words st' = hsk_words st
                 /\ auto_increment st' = auto_increment st
                 /\ session st' = session st /\ db_log st' = db_log st) as Hprints.
  { intros r lines Hp st. unfold outcome, final. by rewrite (Hp st). }
  destruct (connection_string env) as [s|] eqn:H.
  - pose proof (load_db_config_connection_string env s H) as Hp.
    eexists _, _. split; [by apply Hprints|].
    unfold loader_report.
    destruct (loaded_config s !! "host") as [h|]; [|done].
    destruct (loaded_config s !! "database") as [d|]; [|done].
    by destruct (loaded_config s !! "user") as [u|].
  - destruct (load_db_config_no_connection_string env H) as [e Hp].
    exists (Raise e), [load_error_line env e]. split; [by apply Hprints|done].
Qed.

(** X14: the loader reads one settings file, the one of the operating
    system it runs on: [appsettings.Development.json] on [Windows],
    spelt so, and [appsettings.Production.json] on any other, both in the
    directory above the script's. Two hosts with the same system, the
    same directory and the same content at that one path make the loader
    do the same, whatever else they hold. *)
Theorem loader_reads_one_file env1 env2 st :
  platform_system env1 = platform_system env2 ->
  project_root env1 = project_root env2 ->
  os_sep env1 = os_sep env2 ->
  config_files env1 !! config_path env1 = config_files env2 !! config_path env1 ->
  load_db_config env1 st = load_db_config env2 st
  /\ config_path env1
     = os_path_join (os_sep env1) (project_root env1)
         (if bool_decide (platform_system env1 = "Windows")
          then "appsettings.Development.json"
          else "appsettings.Production.json").
Proof.
  intros Hsys Hroot Hsep Hfile. split.
  - unfold config_path in Hfile. unfold load_db_config, json_load.
    rewrite <- Hsys, <- Hroot, <- Hsep, <- Hfile. reflexivity.
  - unfold config_path, config_file_for, string_eqb.
    by destruct (bool_decide (platform_system env1 = "Windows")).
Qed.

Lemma loader_reads_one_file_witness :
  load_db_config (sample_env sample_conn_str) st0 = load_db_config refusing_env st0.
Proof.
  exact (proj1 (loader_reads_one_file (sample_env sample_conn_str) refusing_env st0
                  eq_refl eq_refl eq_refl eq_refl)).
Defined.

(** ** The exporter and the console *)


